(** * manual-tls-certificates-operator: the charm of [src/charm.py]

    A shallow embedding of [TLSCertificatesOperatorCharm] and of the
    collaborators it calls, followed by the properties of the design
    document that concern it.

    Python values are modelled as follows.
    - [str] is a list of Unicode code points, [bytes] a list of octets.
    - An exception is a value of [exn]; a computation that may raise
      returns a [result]; a method that also mutates [self] or the event
      is a state transformer [M S A], whose state survives a raise, as
      the attributes of a Python object do.
    - The standard-library codecs and the validators of [helpers.py] are
      taken as the fields of the classes [Runtime] and [Helpers]; the
      charm library [TLSCertificatesProvidesV2] as the class of that
      name.  The theorems about the charm hold for every instance. *)

From Stdlib Require Import String Ascii DecimalString DecimalNat.
From Stdlib Require Import Strings.Byte.
From Stdlib Require Import List NArith ZArith Bool Lia.
Import ListNotations.

Set Implicit Arguments.

(** ** Python data *)

Definition codepoint := N.
Definition str := list codepoint.
Definition bytes := list byte.

(** A Python string literal. *)
Definition py (s : string) : str := map N_of_ascii (list_ascii_of_string s).

Definition str_eqb (a b : str) : bool :=
  if list_eq_dec N.eq_dec a b then true else false.

(** [str(n)] for a non-negative integer, as an f-string formats it. *)
Definition str_of_nat (n : nat) : str :=
  py (NilEmpty.string_of_uint (Nat.to_uint n)).

(** ** Exceptions *)

Inductive exn : Type :=
| BinasciiError
| TypeError
| ValueError
| UnicodeDecodeError
| RuntimeError
| KeyError
| NotImplementedError.

Definition exn_eqb (a b : exn) : bool :=
  match a, b with
  | BinasciiError, BinasciiError
  | TypeError, TypeError
  | ValueError, ValueError
  | UnicodeDecodeError, UnicodeDecodeError
  | RuntimeError, RuntimeError
  | KeyError, KeyError
  | NotImplementedError, NotImplementedError => true
  | _, _ => false
  end.

(** [issubclass e cls]: an [except cls] clause catches [e].  The class
    hierarchy is Python's: [binascii.Error] and [UnicodeDecodeError]
    derive from [ValueError], [NotImplementedError] from [RuntimeError]. *)
Definition issubclass (e cls : exn) : bool :=
  match cls, e with
  | ValueError, (BinasciiError | UnicodeDecodeError) => true
  | RuntimeError, NotImplementedError => true
  | _, _ => exn_eqb e cls
  end.

Inductive result (A : Type) : Type :=
| Ok (a : A)
| Raise (e : exn).

Arguments Ok {A} a.
Arguments Raise {A} e.

(** ** Computations: values that may raise, and methods with state *)

Definition M (S A : Type) : Type := S -> S * result A.

Class Monad (T : Type -> Type) : Type := {
  ret : forall {A}, A -> T A;
  bind : forall {A B}, T A -> (A -> T B) -> T B
}.

#[export] Instance result_monad : Monad result := {
  ret := fun A a => Ok a;
  bind := fun A B r k => match r with Ok a => k a | Raise e => Raise e end
}.

#[export] Instance state_monad (S : Type) : Monad (M S) := {
  ret := fun A a s => (s, Ok a);
  bind := fun A B m k s =>
    match m s with
    | (s', Ok a) => k a s'
    | (s', Raise e) => (s', Raise e)
    end
}.

Declare Scope py_scope.
Delimit Scope py_scope with py.
Notation "x <- m ;; k" := (bind m (fun x => k))
  (at level 61, m at next level, right associativity) : py_scope.
Notation "m ;;; k" := (bind m (fun _ => k))
  (at level 61, right associativity) : py_scope.
Open Scope py_scope.

(** A pure, possibly raising expression evaluated inside a method. *)
Definition lift {S A : Type} (r : result A) : M S A := fun s => (s, r).

Definition get {S : Type} : M S S := fun s => (s, Ok s).
Definition modify {S : Type} (f : S -> S) : M S unit := fun s => (f s, Ok tt).

(** [try: body  except cls: handler], the body returning a value. *)
Definition try_except {S A : Type} (body : M S A) (cls : exn) (handler : M S A)
  : M S A :=
  fun s =>
    match body s with
    | (s', Raise e) => if issubclass e cls then handler s' else (s', Raise e)
    | r => r
    end.

(** ** [str.strip()] *)

(** [str.isspace] on one code point: the Unicode white-space characters. *)
Definition isspace (c : codepoint) : bool :=
  ((9 <=? c) && (c <=? 13) || (28 <=? c) && (c <=? 32)
   || (c =? 133) || (c =? 160) || (c =? 5760)
   || (8192 <=? c) && (c <=? 8202)
   || (c =? 8232) || (c =? 8233) || (c =? 8239) || (c =? 8287)
   || (c =? 12288))%N.

Fixpoint lstrip (s : str) : str :=
  match s with
  | c :: s' => if isspace c then lstrip s' else s
  | [] => []
  end.

Definition rstrip (s : str) : str := rev (lstrip (rev s)).

Definition strip (s : str) : str := rstrip (lstrip s).

(** ** helpers.py *)

Definition BEGIN_CERTIFICATE : str := py "-----BEGIN CERTIFICATE-----".
Definition END_CERTIFICATE : str := py "-----END CERTIFICATE-----".

Fixpoint starts_with (p s : str) : bool :=
  match p, s with
  | [], _ => true
  | a :: p', b :: s' => N.eqb a b && starts_with p' s'
  | _ :: _, [] => false
  end.

(** The text before the first occurrence of [marker] in [s] and the text
    after it, or [None] when [marker] does not occur. *)
Fixpoint find_marker (marker s : str) : option (str * str) :=
  if starts_with marker s then Some ([], skipn (length marker) s)
  else
    match s with
    | [] => None
    | c :: s' =>
        match find_marker marker s' with
        | Some (before, after) => Some (c :: before, after)
        | None => None
        end
    end.

(** At most [fuel] blocks of [s], each from a BEGIN delimiter to the next
    END delimiter after it. *)
Fixpoint parse_blocks (fuel : nat) (s : str) : list str :=
  match fuel with
  | O => []
  | S fuel' =>
      match find_marker BEGIN_CERTIFICATE s with
      | None => []
      | Some (_, opened) =>
          match find_marker END_CERTIFICATE opened with
          | None => []
          | Some (body, rest) =>
              (BEGIN_CERTIFICATE ++ body ++ END_CERTIFICATE)
                :: parse_blocks fuel' rest
          end
      end
  end.

(** Modelled from the spec: [parse_ca_chain] of [helpers.py], which is
    not among the sources.  Section 4.1: it "splits a text blob on PEM
    block boundaries (BEGIN CERTIFICATE / END CERTIFICATE delimiters),
    returning each block (delimiters included) as a separate string, in
    original order.  A blob with no delimiters returns an empty sequence.
    No validation is performed here".  A block takes at least one
    character, so [length s] blocks are more than [s] can hold. *)
Definition parse_ca_chain (s : str) : list str := parse_blocks (length s) s.

(** ** The collaborators outside [charm.py] *)

(** The standard library: [base64.b64decode], [bytes.decode] (UTF-8 is
    its default, so [.decode()] and [.decode("utf-8")] are one function)
    and [str.encode].  The first two raise on malformed input.
    [str.encode] is total on the strings that reach it: they are slices
    of a string that [bytes.decode] returned. *)
Class Runtime : Type := {
  b64decode : str -> result bytes;
  bytes_decode : bytes -> result str;
  str_encode : str -> bytes
}.

(** The two validators of [helpers.py], which is not among the sources.
    Section 4.1 of the design gives their contract: they return a
    boolean and never raise, malformed input yielding [False]. *)
Class Helpers : Type := {
  certificate_is_valid : bytes -> bool;
  certificate_signing_request_is_valid : bytes -> bool
}.

(** ** Relation data *)

(** What is stored against a fulfilled request. *)
Record Attachment : Type := {
  att_certificate : str;
  att_ca : str;
  att_chain : list str
}.

(** One request of a requirer unit, outstanding while [entry_issued] is
    [None]. *)
Record Entry : Type := {
  entry_csr : str;
  entry_issued : option Attachment
}.

Record UnitRecord : Type := {
  unit_name : str;
  unit_entries : list Entry
}.

Record Relation : Type := {
  rel_id : Z;
  rel_units : list UnitRecord
}.

(** [self.model.relations]: relation name to the relations of that name,
    for the names the charm's metadata declares. *)
Definition RelationMapping : Type := list (str * list Relation).

(** [RelationMapping.__getitem__]. *)
Fixpoint relations_getitem (m : RelationMapping) (name : str)
  : result (list Relation) :=
  match m with
  | [] => Raise KeyError
  | (k, v) :: m' => if str_eqb k name then Ok v else relations_getitem m' name
  end.

(** [Mapping.get(name, default)]: the item, or the default on
    [KeyError]. *)
Definition relations_get (m : RelationMapping) (name : str)
  (default : list Relation) : result (list Relation) :=
  match relations_getitem m name with
  | Ok v => Ok v
  | Raise e => if issubclass e KeyError then Ok default else Raise e
  end.

(** The relations of a name, none when the name is not declared. *)
Definition relations_named (m : RelationMapping) (name : str)
  : list Relation :=
  match relations_getitem m name with
  | Ok l => l
  | Raise _ => []
  end.

(** Truth value of a list. *)
Definition truthy {A : Type} (l : list A) : bool :=
  match l with [] => false | _ :: _ => true end.

(** ** The charm library interface *)

(** An element of [get_requirer_csrs_with_no_certs()]. *)
Record UnitCsrs : Type := {
  requirer_unit : str;
  unit_csrs : list str
}.

(** The keyword arguments of [set_relation_certificate]. *)
Record Issued : Type := {
  issued_certificate_signing_request : str;
  issued_certificate : str;
  issued_ca : str;
  issued_chain : list str;
  issued_relation_id : Z
}.

Inductive EventSource : Type :=
| on_install
| on_certificate_creation_request
| on_get_outstanding_certificate_requests_action
| on_get_certificate_request_action
| on_provide_certificate_action
| on_library_event (name : str).

Inductive HandlerName : Type :=
| handler_on_install
| handler_on_certificate_creation_request
| handler_on_get_outstanding_certificate_requests_action
| handler_on_get_certificate_request_action
| handler_on_provide_certificate_action
| handler_of_library (name : str).

Definition Observer : Type := (EventSource * HandlerName)%type.

(** [TLSCertificatesProvidesV2(charm, relationship_name)]: the observers
    its constructor registers and the three methods the charm calls, over
    the relation data of the model. *)
Class TLSCertificatesProvidesV2 (relationship_name : str) : Type := {
  provides_observers : list Observer;
  get_requirer_csrs_with_no_certs : RelationMapping -> list UnitCsrs;
  get_requirer_csrs : Z -> RelationMapping -> result (list UnitRecord);
  set_relation_certificate : Issued -> M RelationMapping unit
}.

(** ** The charm object and the action event *)

Inductive StatusBase : Type :=
| UnknownStatus
| ActiveStatus (message : str).

(** A call of a method of [self.tls_certificates]. *)
Inductive TlsCall : Type :=
| Call_get_requirer_csrs_with_no_certs
| Call_get_requirer_csrs (relation_id : Z)
| Call_set_relation_certificate (args : Issued).

(** The state a hook can see or change: [self.unit.is_leader()],
    [self.model.relations] with the relation data, [self.unit.status] and
    the observers of [self.framework].  [tls_calls] is the history of
    calls into the charm library, kept to state which calls a handler
    makes. *)
Record Charm : Type := {
  is_leader : bool;
  relations : RelationMapping;
  status : StatusBase;
  observers : list Observer;
  tls_calls : list TlsCall
}.

Definition with_relations (r : RelationMapping) (c : Charm) : Charm :=
  {| is_leader := is_leader c; relations := r; status := status c;
     observers := observers c; tls_calls := tls_calls c |}.

Definition with_status (s : StatusBase) (c : Charm) : Charm :=
  {| is_leader := is_leader c; relations := relations c; status := s;
     observers := observers c; tls_calls := tls_calls c |}.

Definition with_observer (o : Observer) (c : Charm) : Charm :=
  {| is_leader := is_leader c; relations := relations c; status := status c;
     observers := observers c ++ [o]; tls_calls := tls_calls c |}.

Definition with_call (k : TlsCall) (c : Charm) : Charm :=
  {| is_leader := is_leader c; relations := relations c; status := status c;
     observers := observers c; tls_calls := tls_calls c ++ [k] |}.

(** [event.params] of the three actions. *)
Record Params : Type := {
  relation_id : Z;
  certificate : str;
  ca_certificate : str;
  certificate_signing_request : str;
  ca_chain : str
}.

(** The value an action stores under the key ["result"]. *)
Inductive ActionResult : Type :=
| ResultText (message : str)
| ResultOutstanding (requests : list UnitCsrs)
| ResultRequests (requests : list UnitRecord).

(** An [ActionEvent]: its parameters, the message of [event.fail] and the
    results of [event.set_results], both unset when the hook starts. *)
Record ActionEvent : Type := {
  params : Params;
  failed : option str;
  results : option ActionResult
}.

Definition new_event (p : Params) : ActionEvent :=
  {| params := p; failed := None; results := None |}.

(** An action handler runs on the charm and on its event. *)
Record Hook : Type := {
  self : Charm;
  event : ActionEvent
}.

Definition on_self {A : Type} (m : M Charm A) : M Hook A :=
  fun h =>
    let (c, r) := m (self h) in ({| self := c; event := event h |}, r).

(** The hook after [event.fail(message)]. *)
Definition failed_with (message : str) (h : Hook) : Hook :=
  {| self := self h;
     event := {| params := params (event h); failed := Some message;
                 results := results (event h) |} |}.

Definition event_fail (message : str) : M Hook unit :=
  modify (failed_with message).

Definition event_set_results (r : ActionResult) : M Hook unit :=
  modify (fun h =>
    {| self := self h;
       event := {| params := params (event h); failed := failed (event h);
                   results := Some r |} |}).

Definition event_params : M Hook Params :=
  fun h => (h, Ok (params (event h))).

(** ** [TLSCertificatesOperatorCharm] *)

Definition CERTIFICATES_RELATION : str := py "certificates".

Section TLSCertificatesOperatorCharm.

Context {RT : Runtime} {HP : Helpers}
        {TLS : TLSCertificatesProvidesV2 CERTIFICATES_RELATION}.

(** Calls through [self.tls_certificates], each entered in [tls_calls]. *)
Definition tls_get_requirer_csrs_with_no_certs : M Charm (list UnitCsrs) :=
  fun c =>
    (with_call Call_get_requirer_csrs_with_no_certs c,
     Ok (get_requirer_csrs_with_no_certs (relations c))).

Definition tls_get_requirer_csrs (rid : Z) : M Charm (list UnitRecord) :=
  fun c =>
    (with_call (Call_get_requirer_csrs rid) c,
     get_requirer_csrs rid (relations c)).

Definition tls_set_relation_certificate (args : Issued) : M Charm unit :=
  fun c =>
    let (rels, r) := set_relation_certificate args (relations c) in
    (with_relations rels (with_call (Call_set_relation_certificate args) c),
     r).

Definition observe (source : EventSource) (handler : HandlerName)
  : M Charm unit :=
  modify (with_observer (source, handler)).

(** [__init__], after the call of the constructor of [CharmBase]. *)
Definition __init__ : M Charm unit :=
  c <- get ;;
  if negb (is_leader c) then lift (Raise NotImplementedError)
  else
    modify (fun c => fold_left (fun c o => with_observer o c)
                       provides_observers c) ;;;
    observe on_install handler_on_install ;;;
    observe on_certificate_creation_request
      handler_on_certificate_creation_request ;;;
    observe on_get_outstanding_certificate_requests_action
      handler_on_get_outstanding_certificate_requests_action ;;;
    observe on_get_certificate_request_action
      handler_on_get_certificate_request_action ;;;
    observe on_provide_certificate_action
      handler_on_provide_certificate_action.

Definition _on_install : M Charm unit :=
  modify (with_status (ActiveStatus (py "Ready to provide certificates."))).

(** [_relation_created]. *)
Definition _relation_created (relation_name : str) : M Charm bool :=
  try_except
    (c <- get ;;
     found <- lift (relations_get (relations c) relation_name []) ;;
     if truthy found then ret true else ret false)
    KeyError
    (ret false).

(** [_get_outstanding_requests]: the loop extends the list with each
    element's ["unit_csrs"]. *)
Definition _get_outstanding_requests : M Charm (list str) :=
  elements <- tls_get_requirer_csrs_with_no_certs ;;
  ret (fold_left (fun certificate_request_list element =>
                    certificate_request_list ++ unit_csrs element)
         elements []).

Definition _on_certificate_creation_request : M Charm unit :=
  outstanding_requests <- _get_outstanding_requests ;;
  let outstanding_requests_num := length outstanding_requests in
  modify (with_status
    (ActiveStatus (str_of_nat outstanding_requests_num
                   ++ py " outstanding requests, "
                   ++ py "use juju actions to provide certificates"))).

(** The four assignments of the [try] block of
    [_action_certificates_are_valid]. *)
Definition decode_action_inputs
  (certificate ca_certificate certificate_signing_request ca_chain : str)
  : result (bytes * bytes * bytes * bytes) :=
  certificate_bytes <- b64decode certificate ;;
  ca_certificate_bytes <- b64decode ca_certificate ;;
  csr_bytes <- b64decode certificate_signing_request ;;
  ca_chain_bytes <- b64decode ca_chain ;;
  ret (certificate_bytes, ca_certificate_bytes, csr_bytes, ca_chain_bytes).

(** The [for ca in ca_chain_list] loop and the [return True] after it. *)
Fixpoint chain_certificates_are_valid (ca_chain_list : list str) : bool :=
  match ca_chain_list with
  | [] => true
  | ca :: rest =>
      if negb (certificate_is_valid (str_encode ca)) then false
      else chain_certificates_are_valid rest
  end.

(** [_action_certificates_are_valid].  The [except] clause names
    [binascii.Error] and [TypeError]; [logger.error] leaves no mark on
    the state. *)
Definition _action_certificates_are_valid
  (certificate ca_certificate certificate_signing_request ca_chain : str)
  : result bool :=
  match decode_action_inputs certificate ca_certificate
          certificate_signing_request ca_chain with
  | Raise e =>
      if issubclass e BinasciiError || issubclass e TypeError
      then Ok false
      else Raise e
  | Ok (certificate_bytes, ca_certificate_bytes, csr_bytes, ca_chain_bytes) =>
      if negb (certificate_is_valid certificate_bytes) then Ok false
      else if negb (certificate_is_valid ca_certificate_bytes) then Ok false
      else if negb (certificate_signing_request_is_valid csr_bytes)
      then Ok false
      else
        ca_chain_text <- bytes_decode ca_chain_bytes ;;
        let ca_chain_list := parse_ca_chain ca_chain_text in
        ret (chain_certificates_are_valid ca_chain_list)
  end.

Definition NO_RELATION : str :=
  py "No certificates relation has been created yet.".
Definition INVALID_INPUT : str := py "Action input is not valid.".
Definition RELATION_NOT_FOUND : str :=
  py "Relation does not exist with the provided id.".
Definition PROVIDED : str := py "Certificates successfully provided.".

Definition _on_get_outstanding_certificate_requests_action : M Hook unit :=
  created <- on_self (_relation_created (py "certificates")) ;;
  if negb created then event_fail NO_RELATION
  else
    result <- on_self tls_get_requirer_csrs_with_no_certs ;;
    event_set_results (ResultOutstanding result).

Definition _on_get_certificate_request_action : M Hook unit :=
  created <- on_self (_relation_created (py "certificates")) ;;
  if negb created then event_fail NO_RELATION
  else
    p <- event_params ;;
    result <- on_self (tls_get_requirer_csrs (relation_id p)) ;;
    event_set_results (ResultRequests result).

(** The text payload of one action parameter:
    [base64.b64decode(x).decode("utf-8")]. *)
Definition decoded_text (x : str) : result str :=
  raw <- b64decode x ;;
  bytes_decode raw.

(** The arguments [_on_provide_certificate_action] builds for
    [set_relation_certificate], in the order the source evaluates
    them. *)
Definition issued_of_params (p : Params) : result Issued :=
  ca_chain_text <- decoded_text (ca_chain p) ;;
  let ca_chain_list := parse_ca_chain ca_chain_text in
  csr_text <- decoded_text (certificate_signing_request p) ;;
  let csr := strip csr_text in
  certificate_text <- decoded_text (certificate p) ;;
  let certificate := strip certificate_text in
  ca_text <- decoded_text (ca_certificate p) ;;
  let ca_cert := strip ca_text in
  ret {| issued_certificate_signing_request := csr;
         issued_certificate := certificate;
         issued_ca := ca_cert;
         issued_chain := ca_chain_list;
         issued_relation_id := relation_id p |}.

(** [_on_provide_certificate_action].  The [try] statement yields
    whether its body completed; the [except RuntimeError] branch fails
    the event and returns. *)
Definition _on_provide_certificate_action : M Hook unit :=
  created <- on_self (_relation_created (py "certificates")) ;;
  if negb created then event_fail NO_RELATION
  else
    p <- event_params ;;
    valid <- lift (_action_certificates_are_valid
                     (certificate p) (ca_certificate p)
                     (certificate_signing_request p) (ca_chain p)) ;;
    if negb valid then event_fail INVALID_INPUT
    else
      args <- lift (issued_of_params p) ;;
      completed <- try_except
                     (on_self (tls_set_relation_certificate args) ;;;
                      ret true)
                     RuntimeError
                     (event_fail RELATION_NOT_FOUND ;;; ret false) ;;
      if completed then event_set_results (ResultText PROVIDED)
      else ret tt.

End TLSCertificatesOperatorCharm.

(** ** The Request Ledger of the design, as the charm library *)

Module Ledger.

(** The design's [NotFoundError]; the [except] clause of
    [_on_provide_certificate_action] shows its class. *)
Definition NotFoundError : exn := RuntimeError.

(** The sessions of the ledger: the relations of the given name. *)
Definition sessions (name : str) (m : RelationMapping) : list Relation :=
  relations_named m name.

Definition get_relation (rels : list Relation) (rid : Z) : option Relation :=
  find (fun r => Z.eqb (rel_id r) rid) rels.

Definition outstanding (e : Entry) : bool :=
  match entry_issued e with
  | None => true
  | Some _ => false
  end.

Definition outstanding_of_unit (u : UnitRecord) : UnitCsrs :=
  {| requirer_unit := unit_name u;
     unit_csrs := map entry_csr (filter outstanding (unit_entries u)) |}.

(** Modelled from the spec: [get_requirer_csrs_with_no_certs] of the
    charm library, which is not among the sources.  Section 4.2,
    [listOutstanding]: "returns, grouped by requester unit, every CSR
    currently in state OUTSTANDING.  Ordering: requester units in
    relation-join order; CSRs within a unit in submission order.
    Read-only".  The scenario of section 8 expects the empty list once
    the only request of the only unit is fulfilled, so a unit with no
    outstanding request is left out. *)
Definition listOutstanding (name : str) (m : RelationMapping)
  : list UnitCsrs :=
  filter (fun u => truthy (unit_csrs u))
    (map outstanding_of_unit (flat_map rel_units (sessions name m))).

(** Modelled from the spec: [get_requirer_csrs] of the charm library,
    which is not among the sources.  Section 4.2, [listByRequester]:
    "returns every CSR (both states) for a given relation/session,
    paired with its certificate if fulfilled.  Fails with NotFoundError
    when relationId does not correspond to an existing session". *)
Definition listByRequester (name : str) (rid : Z) (m : RelationMapping)
  : result (list UnitRecord) :=
  match get_relation (sessions name m) rid with
  | Some r => Ok (rel_units r)
  | None => Raise NotFoundError
  end.

(** The first outstanding entry for [csr] becomes fulfilled; [None] when
    there is none. *)
Fixpoint fulfil_entry (csr : str) (a : Attachment) (es : list Entry)
  : option (list Entry) :=
  match es with
  | [] => None
  | e :: es' =>
      if outstanding e && str_eqb (entry_csr e) csr
      then Some ({| entry_csr := entry_csr e; entry_issued := Some a |} :: es')
      else option_map (cons e) (fulfil_entry csr a es')
  end.

Fixpoint fulfil_unit (csr : str) (a : Attachment) (us : list UnitRecord)
  : list UnitRecord :=
  match us with
  | [] => []
  | u :: us' =>
      match fulfil_entry csr a (unit_entries u) with
      | Some es => {| unit_name := unit_name u; unit_entries := es |} :: us'
      | None => u :: fulfil_unit csr a us'
      end
  end.

Definition fulfil_relation (args : Issued) (r : Relation) : Relation :=
  if Z.eqb (rel_id r) (issued_relation_id args)
  then {| rel_id := rel_id r;
          rel_units :=
            fulfil_unit (issued_certificate_signing_request args)
              {| att_certificate := issued_certificate args;
                 att_ca := issued_ca args;
                 att_chain := issued_chain args |}
              (rel_units r) |}
  else r.

Fixpoint update_sessions (name : str) (f : Relation -> Relation)
  (m : RelationMapping) : RelationMapping :=
  match m with
  | [] => []
  | (k, v) :: m' =>
      if str_eqb k name then (k, map f v) :: m'
      else (k, v) :: update_sessions name f m'
  end.

(** Modelled from the spec: [set_relation_certificate] of the charm
    library, which is not among the sources.  Section 4.2,
    [attachCertificate]: "locates the matching OUTSTANDING entry for csr
    within relationId and transitions it to FULFILLED, storing
    certificate/CA/chain.  Fails with NotFoundError when no session
    exists for relationId (regardless of whether the CSR text matches
    anything) -- matching is scoped to relation, not global".  The
    design does not say what happens when the relation exists and holds
    no such entry; the relation data is then left as it is. *)
Definition attachCertificate (name : str) (args : Issued)
  : M RelationMapping unit :=
  fun m =>
    match get_relation (sessions name m) (issued_relation_id args) with
    | None => (m, Raise NotFoundError)
    | Some _ => (update_sessions name (fulfil_relation args) m, Ok tt)
    end.

(** The library's constructor observes the relation-changed event of
    its relation; no property below depends on what it registers. *)
Definition library_observers (name : str) : list Observer :=
  [(on_library_event (name ++ py "_relation_changed"),
    handler_of_library (py "_on_relation_changed"))].

#[export] Instance provider (name : str) : TLSCertificatesProvidesV2 name := {
  provides_observers := library_observers name;
  get_requirer_csrs_with_no_certs := listOutstanding name;
  get_requirer_csrs := listByRequester name;
  set_relation_certificate := attachCertificate name
}.

End Ledger.

(** ** A reference runtime

    Executable codecs after CPython's, and stand-in validators, to run
    the charm on concrete inputs.  The theorems on the charm quantify
    over every [Runtime] and [Helpers]; this instance serves the closed
    examples. *)

Module Reference.

Local Open Scope N_scope.

Definition octets (b : bytes) : list N := map Byte.to_N b.

Definition byte_of_N (n : N) : byte :=
  match Byte.of_N (n mod 256) with
  | Some b => b
  | None => x00
  end.

Definition of_octets (l : list N) : bytes := map byte_of_N l.

(** The value of a character of the base64 alphabet. *)
Definition b64_value (c : N) : option N :=
  if (65 <=? c) && (c <=? 90) then Some (c - 65)
  else if (97 <=? c) && (c <=? 122) then Some (c - 71)
  else if (48 <=? c) && (c <=? 57) then Some (c + 4)
  else if c =? 43 then Some 62
  else if c =? 47 then Some 63
  else None.

(** [binascii.a2b_base64] in its default mode: characters outside the
    alphabet are skipped, a complete pad sequence ends the input, and a
    quad left open at the end is an error.  [out] is the output so far,
    last octet first. *)
Fixpoint a2b_base64 (s : list N) (quad_pos leftchar pads : N) (out : list N)
  : result (list N) :=
  match s with
  | [] => if quad_pos =? 0 then Ok (rev out) else Raise BinasciiError
  | ch :: s' =>
      if ch =? 61 then
        if (2 <=? quad_pos) && (4 <=? quad_pos + (pads + 1))
        then Ok (rev out)
        else a2b_base64 s' quad_pos leftchar
               (if 2 <=? quad_pos then pads + 1 else pads) out
      else
        match b64_value ch with
        | None => a2b_base64 s' quad_pos leftchar pads out
        | Some v =>
            if quad_pos =? 0 then a2b_base64 s' 1 v 0 out
            else if quad_pos =? 1 then
              a2b_base64 s' 2 (v mod 16) 0 ((leftchar * 4 + v / 16) :: out)
            else if quad_pos =? 2 then
              a2b_base64 s' 3 (v mod 4) 0 ((leftchar * 16 + v / 4) :: out)
            else a2b_base64 s' 0 0 0 ((leftchar * 64 + v) :: out)
        end
  end.

(** [base64.b64decode] of a [str]: the string is first encoded as ASCII,
    and a character outside ASCII raises a plain [ValueError]. *)
Definition py_b64decode (s : str) : result bytes :=
  if forallb (fun c => c <? 128) s
  then octs <- a2b_base64 s 0 0 0 [] ;; ret (of_octets octs)
  else Raise ValueError.

Definition b64_char (v : N) : N :=
  if v <? 26 then v + 65
  else if v <? 52 then v + 71
  else if v <? 62 then v - 4
  else if v =? 62 then 43 else 47.

(** [base64.b64encode], to write the inputs of the examples. *)
Fixpoint b64encode_octets (l : list N) : str :=
  match l with
  | [] => []
  | [a] => [b64_char (a / 4); b64_char (a mod 4 * 16); 61; 61]
  | [a; b] =>
      [b64_char (a / 4); b64_char (a mod 4 * 16 + b / 16);
       b64_char (b mod 16 * 4); 61]
  | a :: b :: c :: rest =>
      b64_char (a / 4) :: b64_char (a mod 4 * 16 + b / 16)
        :: b64_char (b mod 16 * 4 + c / 64) :: b64_char (c mod 64)
        :: b64encode_octets rest
  end.

Definition continuation (b : N) : bool := (128 <=? b) && (b <=? 191).

(** The range of the second octet after the lead octet [b0]. *)
Definition second_ok (b0 b1 : N) : bool :=
  if b0 =? 224 then (160 <=? b1) && (b1 <=? 191)
  else if b0 =? 237 then (128 <=? b1) && (b1 <=? 159)
  else if b0 =? 240 then (144 <=? b1) && (b1 <=? 191)
  else if b0 =? 244 then (128 <=? b1) && (b1 <=? 143)
  else continuation b1.

(** Strict UTF-8 decoding: only well-formed sequences, no surrogates,
    nothing above U+10FFFF. *)
Fixpoint utf8_decode (l : list N) : result str :=
  match l with
  | [] => Ok []
  | b0 :: t0 =>
      if b0 <? 128 then rest <- utf8_decode t0 ;; ret (b0 :: rest)
      else if (194 <=? b0) && (b0 <=? 223) then
        match t0 with
        | b1 :: t1 =>
            if continuation b1
            then rest <- utf8_decode t1 ;;
                 ret (((b0 - 192) * 64 + (b1 - 128)) :: rest)
            else Raise UnicodeDecodeError
        | _ => Raise UnicodeDecodeError
        end
      else if (224 <=? b0) && (b0 <=? 239) then
        match t0 with
        | b1 :: b2 :: t2 =>
            if second_ok b0 b1 && continuation b2
            then rest <- utf8_decode t2 ;;
                 ret (((b0 - 224) * 4096 + (b1 - 128) * 64 + (b2 - 128))
                        :: rest)
            else Raise UnicodeDecodeError
        | _ => Raise UnicodeDecodeError
        end
      else if (240 <=? b0) && (b0 <=? 244) then
        match t0 with
        | b1 :: b2 :: b3 :: t3 =>
            if second_ok b0 b1 && continuation b2 && continuation b3
            then rest <- utf8_decode t3 ;;
                 ret (((b0 - 240) * 262144 + (b1 - 128) * 4096
                       + (b2 - 128) * 64 + (b3 - 128)) :: rest)
            else Raise UnicodeDecodeError
        | _ => Raise UnicodeDecodeError
        end
      else Raise UnicodeDecodeError
  end.

Definition py_bytes_decode (b : bytes) : result str := utf8_decode (octets b).

Definition utf8_encode_codepoint (c : N) : list N :=
  if c <? 128 then [c]
  else if c <? 2048 then [192 + c / 64; 128 + c mod 64]
  else if c <? 65536 then
    [224 + c / 4096; 128 + c / 64 mod 64; 128 + c mod 64]
  else [240 + c / 262144; 128 + c / 4096 mod 64; 128 + c / 64 mod 64;
        128 + c mod 64].

Definition py_str_encode (s : str) : bytes :=
  of_octets (flat_map utf8_encode_codepoint s).

(** [base64.b64encode(text.encode()).decode()]. *)
Definition b64 (text : str) : str :=
  b64encode_octets (flat_map utf8_encode_codepoint text).

#[export] Instance runtime : Runtime := {
  b64decode := py_b64decode;
  bytes_decode := py_bytes_decode;
  str_encode := py_str_encode
}.

(** Stand-in validators: they accept the octets of a text that opens
    with the BEGIN line of the expected label and closes, up to trailing
    white space, with its END line.  The validators of [helpers.py]
    parse the object between the two lines too. *)
Definition enveloped (label : str) (b : bytes) : bool :=
  starts_with (py "-----BEGIN " ++ label ++ py "-----") (octets b)
  && starts_with (rev (py "-----END " ++ label ++ py "-----"))
       (lstrip (rev (octets b))).

#[export] Instance helpers : Helpers := {
  certificate_is_valid := enveloped (py "CERTIFICATE");
  certificate_signing_request_is_valid := enveloped (py "CERTIFICATE REQUEST")
}.

Definition newline : str := [10%N].

(** A PEM text with the given label and body. *)
Definition pem (label body : str) : str :=
  py "-----BEGIN " ++ label ++ py "-----" ++ newline ++ body ++ newline
  ++ py "-----END " ++ label ++ py "-----" ++ newline.

Definition a_certificate : str := pem (py "CERTIFICATE") (py "MIIBszCCAVmg").
Definition a_ca_certificate : str := pem (py "CERTIFICATE") (py "MIIBtjCCAVyg").
Definition a_csr : str := pem (py "CERTIFICATE REQUEST") (py "MIICVDCCATwC").

(** A request of unit [requirer/0] under relation 7, outstanding. *)
Definition a_relation : Relation :=
  {| rel_id := 7;
     rel_units := [{| unit_name := py "requirer/0";
                      unit_entries := [{| entry_csr := strip a_csr;
                                          entry_issued := None |}] |}] |}.

Definition a_charm (rels : list Relation) : Charm :=
  {| is_leader := true;
     relations := [(CERTIFICATES_RELATION, rels)];
     status := UnknownStatus;
     observers := [];
     tls_calls := [] |}.

Definition some_params (rid : Z) (cert ca_cert csr chain : str) : Params :=
  {| relation_id := rid;
     certificate := cert;
     ca_certificate := ca_cert;
     certificate_signing_request := csr;
     ca_chain := chain |}.

(** Well-formed parameters for relation [rid]: a certificate, a CA
    certificate, the request of [a_relation] and a chain of two
    blocks. *)
Definition good_params (rid : Z) : Params :=
  some_params rid (b64 a_certificate) (b64 a_ca_certificate) (b64 a_csr)
    (b64 (a_ca_certificate ++ a_certificate)).

(** Parameters that are not base64: one data character is one more
    than a multiple of four. *)
Definition undecodable_params : Params :=
  some_params 7 (py "a") (py "a") (py "a") (py "a").

Definition a_hook (rels : list Relation) (p : Params) : Hook :=
  {| self := a_charm rels; event := new_event p |}.

(** A certificate text with an octet that is not UTF-8 between its two
    delimiters, in base64: the stand-in validator accepts its octets and
    [bytes.decode] rejects them. *)
Definition binary_certificate : str :=
  b64encode_octets
    (py "-----BEGIN CERTIFICATE-----" ++ [255] ++ py "-----END CERTIFICATE-----").

(** A charm library every call of which raises [e] and changes
    nothing. *)
Definition failing_provider (e : exn)
  : TLSCertificatesProvidesV2 CERTIFICATES_RELATION :=
  {| provides_observers := [];
     get_requirer_csrs_with_no_certs := fun _ => [];
     get_requirer_csrs := fun _ _ => Raise e;
     set_relation_certificate := fun _ m => (m, Raise e) |}.

End Reference.

(** ** Vocabulary of the statements *)

Section Vocabulary.

Context {RT : Runtime} {HP : Helpers}.

(** The four base64 parameters in the order the source decodes them. *)
Definition encoded_parts (p : Params) : list str :=
  [certificate p; ca_certificate p; certificate_signing_request p;
   ca_chain p].

(** [e] is the exception of the first part that [b64decode] rejects. *)
Definition first_raise (parts : list str) (e : exn) : Prop :=
  exists before part after,
    parts = before ++ part :: after
    /\ Forall (fun x => exists b, b64decode x = Ok b) before
    /\ b64decode part = Raise e.

(** Base64 decoding fails with one of the two exceptions the source
    names. *)
Definition decoding_fails (p : Params) : Prop :=
  exists e,
    first_raise (encoded_parts p) e /\ (e = BinasciiError \/ e = TypeError).

(** The four parts decode. *)
Definition decodes_to (p : Params) (cert ca_cert csr chain : bytes) : Prop :=
  b64decode (certificate p) = Ok cert
  /\ b64decode (ca_certificate p) = Ok ca_cert
  /\ b64decode (certificate_signing_request p) = Ok csr
  /\ b64decode (ca_chain p) = Ok chain.

(** Structural validation of one of the four parts fails: the
    certificate, the CA certificate or the request is refused by its
    validator, or a block of the chain text is. *)
Definition structure_fails (p : Params) : Prop :=
  exists cert ca_cert csr chain,
    decodes_to p cert ca_cert csr chain
    /\ (certificate_is_valid cert = false
        \/ certificate_is_valid ca_cert = false
        \/ certificate_signing_request_is_valid csr = false
        \/ exists text block,
             bytes_decode chain = Ok text
             /\ In block (parse_ca_chain text)
             /\ certificate_is_valid (str_encode block) = false).

(** Every step passes. *)
Definition all_steps_pass (p : Params) : Prop :=
  exists cert ca_cert csr chain text,
    decodes_to p cert ca_cert csr chain
    /\ certificate_is_valid cert = true
    /\ certificate_is_valid ca_cert = true
    /\ certificate_signing_request_is_valid csr = true
    /\ bytes_decode chain = Ok text
    /\ Forall (fun block => certificate_is_valid (str_encode block) = true)
         (parse_ca_chain text).

(** The first three parts are accepted and the octets of the chain are
    not UTF-8. *)
Definition chain_is_not_text (p : Params) (e : exn) : Prop :=
  exists cert ca_cert csr chain,
    decodes_to p cert ca_cert csr chain
    /\ certificate_is_valid cert = true
    /\ certificate_is_valid ca_cert = true
    /\ certificate_signing_request_is_valid csr = true
    /\ bytes_decode chain = Raise e.

(** [_action_certificates_are_valid] on the parameters of an event. *)
Definition validate (p : Params) : result bool :=
  _action_certificates_are_valid (certificate p) (ca_certificate p)
    (certificate_signing_request p) (ca_chain p).

End Vocabulary.

(** The value of a decimal digit. *)
Definition digit_value (c : codepoint) : option nat :=
  if ((48 <=? c) && (c <=? 57))%N then Some (N.to_nat (c - 48)) else None.

Fixpoint decimal_value_from (acc : nat) (s : str) : option nat :=
  match s with
  | [] => Some acc
  | c :: s' =>
      match digit_value c with
      | Some d => decimal_value_from (10 * acc + d) s'
      | None => None
      end
  end.

(** The number a text denotes as a decimal numeral: one digit or more,
    nothing but digits, and no leading zero except in the numeral of
    zero.  Any other text denotes nothing. *)
Definition decimal_value (s : str) : option nat :=
  match s with
  | [] => None
  | [c] => digit_value c
  | c :: _ :: _ => if N.eqb c 48 then None else decimal_value_from 0 s
  end.

(** The hyphen: PEM delimiters open and close with five of them, and
    neither base64 text nor a line break holds one. *)
Definition DASH : codepoint := 45%N.

Definition dashless (s : str) : Prop := Forall (fun c => c <> DASH) s.

(** One PEM certificate block with the given body. *)
Definition pem_block (body : str) : str :=
  BEGIN_CERTIFICATE ++ body ++ END_CERTIFICATE.

(** Blocks one after the other, each given by its body and by the text
    that separates it from the next. *)
Fixpoint chain_blob (items : list (str * str)) : str :=
  match items with
  | [] => []
  | (body, separator) :: rest => pem_block body ++ separator ++ chain_blob rest
  end.

(** [marker] occurs in [s]. *)
Definition occurs (marker s : str) : Prop :=
  exists before after, s = before ++ marker ++ after.

(** [s] is [t] without its leading and trailing white space. *)
Definition trimmed (t s : str) : Prop :=
  exists l r,
    t = l ++ s ++ r
    /\ forallb isspace l = true /\ forallb isspace r = true
    /\ (forall c s', s = c :: s' -> isspace c = false)
    /\ (forall c s', s = s' ++ [c] -> isspace c = false).

(** * Properties *)

(** ** Running a method *)

Lemma run_bind {S A B : Type} (m : M S A) (k : A -> M S B) (s : S) :
  bind m k s
  = match m s with
    | (s', Ok a) => k a s'
    | (s', Raise e) => (s', Raise e)
    end.
Proof. reflexivity. Qed.

(** ** Strings and exceptions *)

Lemma str_eqb_eq (a b : str) : str_eqb a b = true <-> a = b.
Proof.
  unfold str_eqb. destruct (list_eq_dec N.eq_dec a b); split; congruence.
Qed.

Lemma str_eqb_refl (a : str) : str_eqb a a = true.
Proof. apply str_eqb_eq. reflexivity. Qed.

Lemma issubclass_refl (e : exn) : issubclass e e = true.
Proof. destruct e; reflexivity. Qed.

(** *** The numeral of a number *)

Lemma decimal_value_from_uint (d : Decimal.uint) (acc : nat) :
  decimal_value_from acc (py (NilEmpty.string_of_uint d))
  = Some (Nat.of_uint_acc d acc).
Proof.
  revert acc. induction d; intros acc; [reflexivity|..];
    cbn [Nat.of_uint_acc]; rewrite Nat.tail_mul_spec, <- IHd;
    unfold py; cbn [NilEmpty.string_of_uint list_ascii_of_string map];
    cbn [decimal_value_from];
    match goal with
    | |- context [digit_value ?c] =>
        let v := eval vm_compute in (digit_value c) in
        change (digit_value c) with v
    end;
    cbv iota beta; f_equal; lia.
Qed.

Lemma unorm_zero_head (d x : Decimal.uint) :
  Decimal.unorm d = Decimal.D0 x -> x = Decimal.Nil.
Proof.
  induction d; cbn; intros H; try discriminate; try (injection H as <-; reflexivity).
  exact (IHd H).
Qed.

Lemma decimal_value_headed (c : codepoint) (s : str) :
  c <> 48%N -> decimal_value (c :: s) = decimal_value_from 0 (c :: s).
Proof.
  intros H. destruct s as [|c' s].
  - cbn [decimal_value decimal_value_from]. destruct (digit_value c); reflexivity.
  - cbn [decimal_value]. destruct (N.eqb c 48) eqn:E; [|reflexivity].
    apply N.eqb_eq in E. congruence.
Qed.

(** The text [str(n)] denotes [n]. *)
Lemma decimal_value_str_of_nat (n : nat) :
  decimal_value (str_of_nat n) = Some n.
Proof.
  unfold str_of_nat.
  assert (Hnorm : Decimal.unorm (Nat.to_uint n) = Nat.to_uint n).
  { rewrite <- (DecimalNat.Unsigned.of_to n) at 2.
    rewrite DecimalNat.Unsigned.to_of. reflexivity. }
  rewrite <- (DecimalNat.Unsigned.of_to n) at 2.
  destruct (Nat.to_uint n) as [|d|d|d|d|d|d|d|d|d|d];
    [discriminate
    |apply unorm_zero_head in Hnorm; subst d; reflexivity
    |..];
    unfold Nat.of_uint; rewrite <- decimal_value_from_uint;
    unfold py; cbn [NilEmpty.string_of_uint list_ascii_of_string map];
    apply decimal_value_headed; cbv; discriminate.
Qed.

Example decimal_value_reads :
  decimal_value (py "0") = Some 0 /\ decimal_value (py "120") = Some 120
  /\ decimal_value (py "") = None /\ decimal_value (py "02") = None
  /\ decimal_value (py "2 ") = None.
Proof. repeat split; reflexivity. Qed.

(** The three failure messages are pairwise different. *)
Lemma messages_distinct :
  NO_RELATION <> INVALID_INPUT /\ NO_RELATION <> RELATION_NOT_FOUND
  /\ RELATION_NOT_FOUND <> INVALID_INPUT.
Proof. repeat split; discriminate. Qed.

(** ** The relation-existence check *)

Lemma relations_getitem_cases (m : RelationMapping) (name : str) :
  (exists l, relations_getitem m name = Ok l)
  \/ relations_getitem m name = Raise KeyError.
Proof.
  induction m as [|[k v] m IH]; simpl.
  - right. reflexivity.
  - destruct (str_eqb k name).
    + left. exists v. reflexivity.
    + exact IH.
Qed.

Lemma relations_get_named (m : RelationMapping) (name : str) :
  relations_get m name [] = Ok (relations_named m name).
Proof.
  unfold relations_get, relations_named.
  destruct (relations_getitem_cases m name) as [[l H]|H]; rewrite H;
    reflexivity.
Qed.

Lemma relation_created_eq (name : str) (c : Charm) :
  _relation_created name c = (c, Ok (truthy (relations_named (relations c) name))).
Proof.
  unfold _relation_created, try_except. cbn.
  unfold lift. rewrite relations_get_named.
  destruct (relations_named (relations c) name); reflexivity.
Qed.

(** C9.  [_relation_created] returns a boolean in every state and for
    every relation name, leaves the charm as it was and lets no
    exception out; the boolean is [False] when the name is unknown to
    the relation mapping (its lookup raises [KeyError]) and when the name
    maps to the empty list. *)
Theorem relation_created_total (name : str) (c : Charm) :
  (exists b : bool, _relation_created name c = (c, Ok b))
  /\ (relations_getitem (relations c) name = Raise KeyError ->
      _relation_created name c = (c, Ok false))
  /\ (relations_getitem (relations c) name = Ok [] ->
      _relation_created name c = (c, Ok false)).
Proof.
  rewrite relation_created_eq. split; [eauto|].
  unfold relations_named. split; intros H; rewrite H; reflexivity.
Qed.

Lemma relation_created_total_witness :
  let unknown := Reference.a_charm [] in
  let empty := Reference.a_charm [] in
  relations_getitem (relations unknown) (py "replicas") = Raise KeyError
  /\ relations_getitem (relations empty) (py "certificates") = Ok []
  /\ _relation_created (py "replicas") unknown = (unknown, Ok false)
  /\ _relation_created (py "certificates") empty = (empty, Ok false).
Proof.
  intros unknown empty.
  assert (H1 : relations_getitem (relations unknown) (py "replicas")
               = Raise KeyError) by reflexivity.
  assert (H2 : relations_getitem (relations empty) (py "certificates")
               = Ok []) by reflexivity.
  split; [exact H1|]. split; [exact H2|]. split.
  - exact (proj1 (proj2 (relation_created_total (py "replicas") unknown)) H1).
  - exact (proj2 (proj2 (relation_created_total (py "certificates") empty)) H2).
Defined.

(** ** Construction *)

Section Construction.

Context {TLS : TLSCertificatesProvidesV2 CERTIFICATES_RELATION}.

(** C7.  On a unit that is not the leader [__init__] raises
    [NotImplementedError] and returns the charm as it found it: no
    observer is registered, neither the library's nor the charm's. *)
Theorem init_fails_on_non_leader (c : Charm) :
  is_leader c = false ->
  __init__ c = (c, Raise NotImplementedError)
  /\ observers (fst (__init__ c)) = observers c.
Proof.
  intros H. unfold __init__. cbn. rewrite H. cbn. split; reflexivity.
Qed.

(** On the leader the constructor completes, and the five observers of
    the charm follow those of the library. *)
Lemma init_registers_on_leader (c : Charm) :
  is_leader c = true ->
  exists c',
    __init__ c = (c', Ok tt)
    /\ observers c' =
         observers c ++ provides_observers
         ++ [(on_install, handler_on_install);
             (on_certificate_creation_request,
              handler_on_certificate_creation_request);
             (on_get_outstanding_certificate_requests_action,
              handler_on_get_outstanding_certificate_requests_action);
             (on_get_certificate_request_action,
              handler_on_get_certificate_request_action);
             (on_provide_certificate_action,
              handler_on_provide_certificate_action)].
Proof.
  intros H. unfold __init__. cbn. rewrite H. cbn.
  eexists. split; [reflexivity|]. cbn.
  assert (G : forall l c0,
             observers (fold_left (fun c1 o => with_observer o c1) l c0)
             = observers c0 ++ l).
  { induction l as [|o l IH]; intros c0; simpl.
    - rewrite app_nil_r. reflexivity.
    - rewrite IH. simpl. rewrite <- app_assoc. reflexivity. }
  rewrite G. repeat rewrite <- app_assoc. reflexivity.
Qed.

End Construction.

Lemma init_fails_on_non_leader_witness :
  let c := {| is_leader := false;
              relations := [(CERTIFICATES_RELATION, [])];
              status := UnknownStatus;
              observers := [];
              tls_calls := [] |} in
  is_leader c = false
  /\ __init__ (TLS := Ledger.provider _) c = (c, Raise NotImplementedError)
  /\ observers (fst (__init__ (TLS := Ledger.provider _) c)) = [].
Proof.
  intros c. split; [reflexivity|].
  exact (init_fails_on_non_leader (TLS := Ledger.provider _) c eq_refl).
Defined.

(** ** Handlers *)

Section Handlers.

Context {RT : Runtime} {HP : Helpers}
        {TLS : TLSCertificatesProvidesV2 CERTIFICATES_RELATION}.

Lemma guard_eq (h : Hook) :
  on_self (_relation_created (py "certificates")) h
  = (h, Ok (truthy (relations_named (relations (self h))
                      CERTIFICATES_RELATION))).
Proof.
  unfold on_self. rewrite relation_created_eq. destruct h; reflexivity.
Qed.

Lemma outstanding_action_without_relation (h : Hook) :
  relations_named (relations (self h)) CERTIFICATES_RELATION = [] ->
  _on_get_outstanding_certificate_requests_action h
  = (failed_with NO_RELATION h, Ok tt).
Proof.
  intros H. unfold _on_get_outstanding_certificate_requests_action.
  cbn. rewrite guard_eq, H. reflexivity.
Qed.

Lemma request_action_without_relation (h : Hook) :
  relations_named (relations (self h)) CERTIFICATES_RELATION = [] ->
  _on_get_certificate_request_action h = (failed_with NO_RELATION h, Ok tt).
Proof.
  intros H. unfold _on_get_certificate_request_action.
  cbn. rewrite guard_eq, H. reflexivity.
Qed.

Lemma provide_action_without_relation (h : Hook) :
  relations_named (relations (self h)) CERTIFICATES_RELATION = [] ->
  _on_provide_certificate_action h = (failed_with NO_RELATION h, Ok tt).
Proof.
  intros H. unfold _on_provide_certificate_action.
  cbn. rewrite guard_eq, H. reflexivity.
Qed.

(** C6.  In a state where the name [certificates] has no relation, each
    of the three actions ends by failing its event with the message "No
    certificates relation has been created yet.", which is neither of
    the other two failure messages; the charm is left as it was, so the
    relation data is unchanged and no method of the charm library has
    been called; no result is set. *)
Theorem actions_fail_without_relation (h : Hook) :
  relations_named (relations (self h)) CERTIFICATES_RELATION = [] ->
  forall action,
    In action [_on_get_outstanding_certificate_requests_action;
               _on_get_certificate_request_action;
               _on_provide_certificate_action] ->
    exists h',
      action h = (h', Ok tt)
      /\ failed (event h') = Some NO_RELATION
      /\ results (event h') = results (event h)
      /\ self h' = self h
      /\ tls_calls (self h') = tls_calls (self h)
      /\ relations (self h') = relations (self h)
      /\ NO_RELATION <> INVALID_INPUT
      /\ NO_RELATION <> RELATION_NOT_FOUND.
Proof.
  intros H action Hin. exists (failed_with NO_RELATION h).
  assert (E : action h = (failed_with NO_RELATION h, Ok tt)).
  { simpl in Hin. destruct Hin as [<-|[<-|[<-|[]]]].
    - apply outstanding_action_without_relation, H.
    - apply request_action_without_relation, H.
    - apply provide_action_without_relation, H. }
  rewrite E. repeat split; discriminate.
Qed.

End Handlers.

Lemma actions_fail_without_relation_witness :
  let h := Reference.a_hook [] (Reference.good_params 7) in
  relations_named (relations (self h)) CERTIFICATES_RELATION = []
  /\ exists h',
       _on_provide_certificate_action (RT := Reference.runtime)
         (HP := Reference.helpers) (TLS := Ledger.provider _) h
       = (h', Ok tt)
       /\ failed (event h') = Some NO_RELATION
       /\ results (event h') = results (event h)
       /\ self h' = self h
       /\ tls_calls (self h') = tls_calls (self h)
       /\ relations (self h') = relations (self h)
       /\ NO_RELATION <> INVALID_INPUT
       /\ NO_RELATION <> RELATION_NOT_FOUND.
Proof.
  intros h. split; [reflexivity|].
  apply (actions_fail_without_relation (RT := Reference.runtime)
           (HP := Reference.helpers) (TLS := Ledger.provider _) h eq_refl).
  right. right. left. reflexivity.
Defined.

(** ** The status after a certificate creation request *)

Section CreationRequest.

Context {TLS : TLSCertificatesProvidesV2 CERTIFICATES_RELATION}.

Lemma extend_all (elements : list UnitCsrs) (acc : list str) :
  fold_left (fun certificate_request_list element =>
               certificate_request_list ++ unit_csrs element)
    elements acc
  = acc ++ concat (map unit_csrs elements).
Proof.
  revert acc. induction elements as [|el elements IH]; intros acc; simpl.
  - rewrite app_nil_r. reflexivity.
  - rewrite IH, <- app_assoc. reflexivity.
Qed.

Lemma length_concat_sum (elements : list UnitCsrs) :
  length (concat (map unit_csrs elements))
  = list_sum (map (fun element => length (unit_csrs element)) elements).
Proof.
  induction elements as [|el elements IH]; simpl.
  - reflexivity.
  - rewrite length_app, IH. reflexivity.
Qed.

(** [_get_outstanding_requests] returns the concatenation of the
    [unit_csrs] lists, after one call of
    [get_requirer_csrs_with_no_certs]. *)
Lemma get_outstanding_requests_eq (c : Charm) :
  _get_outstanding_requests c
  = (with_call Call_get_requirer_csrs_with_no_certs c,
     Ok (concat (map unit_csrs
                   (get_requirer_csrs_with_no_certs (relations c))))).
Proof.
  unfold _get_outstanding_requests, tls_get_requirer_csrs_with_no_certs.
  cbn. rewrite extend_all. reflexivity.
Qed.

(** C10.  After [_on_certificate_creation_request] the status is active
    and its message is a decimal numeral followed by " outstanding
    requests, use juju actions to provide certificates".  The numeral
    denotes the sum, over the elements [get_requirer_csrs_with_no_certs]
    returned, of the lengths of their [unit_csrs] lists: the number of
    outstanding requests, not of requirer units.  The relation data is
    not changed. *)
Theorem creation_request_reports_total (c : Charm) :
  let elements := get_requirer_csrs_with_no_certs (relations c) in
  let total :=
    list_sum (map (fun element => length (unit_csrs element)) elements) in
  exists c' numeral,
    _on_certificate_creation_request c = (c', Ok tt)
    /\ status c' =
         ActiveStatus
           (numeral
            ++ py " outstanding requests, use juju actions to provide certificates")
    /\ decimal_value numeral = Some total
    /\ relations c' = relations c.
Proof.
  intros elements total. unfold _on_certificate_creation_request.
  rewrite run_bind, get_outstanding_requests_eq.
  eexists. exists (str_of_nat total).
  split; [reflexivity|]. split; [|split; [|reflexivity]].
  - cbn. rewrite length_concat_sum. reflexivity.
  - apply decimal_value_str_of_nat.
Qed.

End CreationRequest.

(** ** Validation of the action input *)

Section Validation.

Context {RT : Runtime} {HP : Helpers}.

Lemma decode_action_inputs_ok (p : Params) (cert ca_cert csr chain : bytes) :
  decodes_to p cert ca_cert csr chain ->
  decode_action_inputs (certificate p) (ca_certificate p)
    (certificate_signing_request p) (ca_chain p)
  = Ok (cert, ca_cert, csr, chain).
Proof.
  intros (H1 & H2 & H3 & H4). unfold decode_action_inputs.
  cbn. rewrite H1, H2, H3, H4. reflexivity.
Qed.

Lemma decode_action_inputs_raise (p : Params) (e : exn) :
  first_raise (encoded_parts p) e ->
  decode_action_inputs (certificate p) (ca_certificate p)
    (certificate_signing_request p) (ca_chain p)
  = Raise e.
Proof.
  intros (before & part & after & Hparts & Hbefore & Hpart).
  unfold encoded_parts in Hparts. unfold decode_action_inputs. cbn.
  destruct before as [|x1 [|x2 [|x3 [|x4 before]]]]; simpl in Hparts;
    injection Hparts as; subst;
    repeat match goal with
           | H : Forall _ (_ :: _) |- _ => inversion H; subst; clear H
           | H : exists b, _ = Ok b |- _ => destruct H as [? ->]
           end;
    try (rewrite Hpart; reflexivity).
  destruct before; discriminate.
Qed.

Lemma decode_action_inputs_cases (p : Params) :
  (exists cert ca_cert csr chain, decodes_to p cert ca_cert csr chain)
  \/ (exists e, first_raise (encoded_parts p) e).
Proof.
  unfold decodes_to, first_raise, encoded_parts.
  destruct (b64decode (certificate p)) as [b1|e] eqn:E1;
    [|right; exists e, [], (certificate p); eexists; repeat split;
      [constructor|exact E1]].
  destruct (b64decode (ca_certificate p)) as [b2|e] eqn:E2;
    [|right; exists e, [certificate p], (ca_certificate p); eexists;
      repeat split; [repeat constructor; eauto|exact E2]].
  destruct (b64decode (certificate_signing_request p)) as [b3|e] eqn:E3;
    [|right; exists e, [certificate p; ca_certificate p],
        (certificate_signing_request p); eexists;
      repeat split; [repeat constructor; eauto|exact E3]].
  destruct (b64decode (ca_chain p)) as [b4|e] eqn:E4;
    [|right; exists e, [certificate p; ca_certificate p;
                        certificate_signing_request p], (ca_chain p), [];
      repeat split; [repeat constructor; eauto|exact E4]].
  left. exists b1, b2, b3, b4. repeat split.
Qed.

Lemma chain_certificates_are_valid_true (blocks : list str) :
  chain_certificates_are_valid blocks = true
  <-> Forall (fun block => certificate_is_valid (str_encode block) = true)
        blocks.
Proof.
  induction blocks as [|b blocks IH]; simpl.
  - split; auto.
  - destruct (certificate_is_valid (str_encode b)) eqn:E; simpl.
    + rewrite IH. split; intros H.
      * constructor; assumption.
      * inversion H; assumption.
    + split; [discriminate|]. intros H. inversion H; congruence.
Qed.

Lemma chain_certificates_are_valid_false (blocks : list str) :
  chain_certificates_are_valid blocks = false
  <-> exists block,
        In block blocks /\ certificate_is_valid (str_encode block) = false.
Proof.
  induction blocks as [|b blocks IH]; simpl.
  - split; [discriminate|]. intros (? & [] & _).
  - destruct (certificate_is_valid (str_encode b)) eqn:E; simpl.
    + rewrite IH. split.
      * intros (x & Hin & Hx). exists x. auto.
      * intros (x & [->|Hin] & Hx); [congruence|]. exists x. auto.
    + split; [|reflexivity]. intros _. exists b. auto.
Qed.

(** A decoding failure of the two named classes makes validation return
    [False]. *)
Lemma validate_decoding_fails (p : Params) :
  decoding_fails p -> validate p = Ok false.
Proof.
  intros (e & Hraise & He). unfold validate, _action_certificates_are_valid.
  rewrite (decode_action_inputs_raise Hraise).
  destruct He as [-> | ->]; reflexivity.
Qed.

(** A structural failure makes validation return [False]. *)
Lemma validate_structure_fails (p : Params) :
  structure_fails p -> validate p = Ok false.
Proof.
  intros (cert & ca_cert & csr & chain & Hdec & H).
  unfold validate, _action_certificates_are_valid.
  rewrite (decode_action_inputs_ok Hdec).
  destruct (certificate_is_valid cert) eqn:E1; [|reflexivity].
  destruct (certificate_is_valid ca_cert) eqn:E2; [|reflexivity].
  destruct (certificate_signing_request_is_valid csr) eqn:E3; [|reflexivity].
  destruct H as [H|[H|[H|(text & block & Htext & Hin & Hblock)]]];
    try discriminate.
  cbn. rewrite Htext. cbn. f_equal.
  apply chain_certificates_are_valid_false. exists block. auto.
Qed.

(** Validation returns [True] exactly when every step passes. *)
Lemma validate_true_iff (p : Params) :
  validate p = Ok true <-> all_steps_pass p.
Proof.
  unfold validate, _action_certificates_are_valid. split.
  - destruct (decode_action_inputs_cases p)
      as [(cert & ca_cert & csr & chain & Hdec)|(e & Hraise)].
    + rewrite (decode_action_inputs_ok Hdec).
      destruct (certificate_is_valid cert) eqn:E1; [|discriminate].
      destruct (certificate_is_valid ca_cert) eqn:E2; [|discriminate].
      destruct (certificate_signing_request_is_valid csr) eqn:E3;
        [|discriminate].
      cbn. destruct (bytes_decode chain) as [text|e] eqn:E4; [|discriminate].
      cbn. intros H. injection H as H.
      exists cert, ca_cert, csr, chain, text. repeat split; try assumption;
        try apply Hdec.
      apply chain_certificates_are_valid_true, H.
    + rewrite (decode_action_inputs_raise Hraise).
      destruct (issubclass e BinasciiError || issubclass e TypeError);
        discriminate.
  - intros (cert & ca_cert & csr & chain & text & Hdec & E1 & E2 & E3 & E4 & H).
    rewrite (decode_action_inputs_ok Hdec), E1, E2, E3. cbn. rewrite E4. cbn.
    f_equal. apply chain_certificates_are_valid_true, H.
Qed.

(** Validation returns [False] exactly on the two kinds of failure. *)
Lemma validate_false_iff (p : Params) :
  validate p = Ok false <-> decoding_fails p \/ structure_fails p.
Proof.
  split.
  - unfold validate, _action_certificates_are_valid.
    destruct (decode_action_inputs_cases p)
      as [(cert & ca_cert & csr & chain & Hdec)|(e & Hraise)].
    + rewrite (decode_action_inputs_ok Hdec). intros H. right.
      exists cert, ca_cert, csr, chain. split; [exact Hdec|].
      destruct (certificate_is_valid cert) eqn:E1; [|auto].
      destruct (certificate_is_valid ca_cert) eqn:E2; [|auto].
      destruct (certificate_signing_request_is_valid csr) eqn:E3; [|auto].
      cbn in H. destruct (bytes_decode chain) as [text|e] eqn:E4;
        [|discriminate].
      cbn in H. injection H as H.
      apply chain_certificates_are_valid_false in H.
      destruct H as (block & Hin & Hblock).
      right. right. right. exists text, block. auto.
    + rewrite (decode_action_inputs_raise Hraise). intros H. left.
      exists e. split; [exact Hraise|].
      destruct e; try discriminate; auto.
  - intros [H|H].
    + apply validate_decoding_fails, H.
    + apply validate_structure_fails, H.
Qed.

(** Validation raises exactly when [b64decode] raises outside the two
    named classes, or when the first three parts pass and the octets of
    the chain do not decode as text. *)
Lemma validate_raise_iff (p : Params) (e : exn) :
  validate p = Raise e
  <-> (first_raise (encoded_parts p) e
       /\ e <> BinasciiError /\ e <> TypeError)
      \/ chain_is_not_text p e.
Proof.
  unfold validate, _action_certificates_are_valid. split.
  - destruct (decode_action_inputs_cases p)
      as [(cert & ca_cert & csr & chain & Hdec)|(e' & Hraise)].
    + rewrite (decode_action_inputs_ok Hdec). intros H. right.
      exists cert, ca_cert, csr, chain.
      destruct (certificate_is_valid cert) eqn:E1; [|discriminate].
      destruct (certificate_is_valid ca_cert) eqn:E2; [|discriminate].
      destruct (certificate_signing_request_is_valid csr) eqn:E3;
        [|discriminate].
      cbn in H. destruct (bytes_decode chain) as [text|e0] eqn:E4;
        [discriminate|].
      cbn in H. injection H as ->. auto.
    + rewrite (decode_action_inputs_raise Hraise). intros H. left.
      destruct e'; cbn in H; try discriminate; injection H as <-;
        repeat split; try assumption; discriminate.
  - intros [(Hraise & H1 & H2)|(cert & ca_cert & csr & chain & Hdec
                                 & E1 & E2 & E3 & E4)].
    + rewrite (decode_action_inputs_raise Hraise).
      destruct e; try reflexivity; congruence.
    + rewrite (decode_action_inputs_ok Hdec), E1, E2, E3. cbn.
      rewrite E4. reflexivity.
Qed.

End Validation.

(** ** [strip] *)

Lemma lstrip_spec (s : str) :
  exists l,
    s = l ++ lstrip s
    /\ forallb isspace l = true
    /\ (forall c s', lstrip s = c :: s' -> isspace c = false).
Proof.
  induction s as [|a s (l & Hs & Hl & Hhead)]; simpl.
  - exists []. repeat split; discriminate.
  - destruct (isspace a) eqn:E.
    + exists (a :: l). simpl. rewrite E, Hl, <- Hs. repeat split. exact Hhead.
    + exists []. repeat split. intros c s' H. injection H as <- _. exact E.
Qed.

Lemma forallb_rev {A : Type} (f : A -> bool) (l : list A) :
  forallb f (rev l) = forallb f l.
Proof.
  induction l as [|a l IH]; simpl.
  - reflexivity.
  - rewrite forallb_app, IH. simpl. rewrite andb_true_r. apply andb_comm.
Qed.

Lemma rstrip_spec (s : str) :
  exists r,
    s = rstrip s ++ r
    /\ forallb isspace r = true
    /\ (forall c s', rstrip s = s' ++ [c] -> isspace c = false).
Proof.
  unfold rstrip. destruct (lstrip_spec (rev s)) as (l & Hs & Hl & Hhead).
  exists (rev l). repeat split.
  - rewrite <- rev_app_distr, <- Hs, rev_involutive. reflexivity.
  - rewrite forallb_rev. exact Hl.
  - intros c s' H. apply (Hhead c (rev s')).
    rewrite <- (rev_involutive (lstrip (rev s))), H, rev_app_distr.
    reflexivity.
Qed.

(** [strip] removes the white space around a string and nothing else. *)
Lemma strip_trimmed (t : str) : trimmed t (strip t).
Proof.
  unfold strip, trimmed.
  destruct (lstrip_spec t) as (l & Ht & Hl & Hhead).
  destruct (rstrip_spec (lstrip t)) as (r & Hs & Hr & Hlast).
  exists l, r. repeat split; try assumption.
  - rewrite <- Hs. exact Ht.
  - intros c s' H. rewrite H in Hs. simpl in Hs. exact (Hhead c _ Hs).
Qed.

(** ** The issuance action *)

Section Issuance.

Context {RT : Runtime} {HP : Helpers}
        {TLS : TLSCertificatesProvidesV2 CERTIFICATES_RELATION}.

Lemma truthy_true {A : Type} (l : list A) : l <> [] -> truthy l = true.
Proof. destruct l; [congruence|reflexivity]. Qed.

(** The action past its first guard, path by path. *)
Lemma provide_with_relation (h : Hook) :
  relations_named (relations (self h)) CERTIFICATES_RELATION <> [] ->
  _on_provide_certificate_action h
  = match validate (params (event h)) with
    | Raise e => (h, Raise e)
    | Ok false => (failed_with INVALID_INPUT h, Ok tt)
    | Ok true =>
        match issued_of_params (params (event h)) with
        | Raise e => (h, Raise e)
        | Ok args =>
            let (rels, r) := set_relation_certificate args (relations (self h)) in
            let called :=
              {| self := with_relations rels
                           (with_call (Call_set_relation_certificate args)
                              (self h));
                 event := event h |} in
            match r with
            | Ok _ =>
                ({| self := self called;
                    event := {| params := params (event h);
                                failed := failed (event h);
                                results := Some (ResultText PROVIDED) |} |},
                 Ok tt)
            | Raise e =>
                if issubclass e RuntimeError
                then (failed_with RELATION_NOT_FOUND called, Ok tt)
                else (called, Raise e)
            end
        end
    end.
Proof.
  intros H. unfold _on_provide_certificate_action.
  rewrite run_bind, guard_eq, (truthy_true H).
  cbn [negb].
  rewrite run_bind. unfold event_params at 1.
  rewrite run_bind. unfold lift at 1.
  fold (validate (params (event h))).
  destruct (validate (params (event h))) as [[|]|e];
    [|reflexivity|reflexivity].
  cbn [negb].
  rewrite run_bind. unfold lift at 1.
  destruct (issued_of_params (params (event h))) as [args|e];
    [|reflexivity].
  rewrite run_bind. unfold try_except. rewrite run_bind.
  unfold on_self, tls_set_relation_certificate.
  destruct (set_relation_certificate args (relations (self h))) as [rels [[]|e]].
  - reflexivity.
  - destruct (issubclass e RuntimeError); reflexivity.
Qed.

(** The arguments of the attach step are the trimmed text payloads and
    the blocks of the chain text. *)
Lemma issued_of_params_ok (p : Params) (args : Issued) :
  issued_of_params p = Ok args
  <-> exists csr_text certificate_text ca_text chain_text,
        decoded_text (certificate_signing_request p) = Ok csr_text
        /\ decoded_text (certificate p) = Ok certificate_text
        /\ decoded_text (ca_certificate p) = Ok ca_text
        /\ decoded_text (ca_chain p) = Ok chain_text
        /\ args = {| issued_certificate_signing_request := strip csr_text;
                     issued_certificate := strip certificate_text;
                     issued_ca := strip ca_text;
                     issued_chain := parse_ca_chain chain_text;
                     issued_relation_id := relation_id p |}.
Proof.
  unfold issued_of_params. cbn [bind ret result_monad]. split.
  - destruct (decoded_text (ca_chain p)) as [chain_text|]; [|discriminate].
    destruct (decoded_text (certificate_signing_request p)) as [csr_text|];
      [|discriminate].
    destruct (decoded_text (certificate p)) as [certificate_text|];
      [|discriminate].
    destruct (decoded_text (ca_certificate p)) as [ca_text|]; [|discriminate].
    intros H. injection H as <-.
    exists csr_text, certificate_text, ca_text, chain_text. repeat split.
  - intros (csr_text & certificate_text & ca_text & chain_text
            & -> & -> & -> & -> & ->).
    reflexivity.
Qed.

(** Whatever the input, the action calls the charm library at most once,
    and then it is [set_relation_certificate] on such arguments. *)
Lemma provide_calls (h : Hook) :
  let h' := fst (_on_provide_certificate_action h) in
  (self h' = self h)
  \/ exists args,
       issued_of_params (params (event h)) = Ok args
       /\ tls_calls (self h') =
            tls_calls (self h) ++ [Call_set_relation_certificate args].
Proof.
  destruct (relations_named (relations (self h)) CERTIFICATES_RELATION)
    as [|r rels] eqn:E.
  - left. rewrite (provide_action_without_relation h E). reflexivity.
  - assert (H : relations_named (relations (self h)) CERTIFICATES_RELATION
                <> []) by (rewrite E; discriminate).
    cbv zeta. rewrite (provide_with_relation h H).
    destruct (validate (params (event h))) as [[|]|e];
      [|left; reflexivity|left; reflexivity].
    destruct (issued_of_params (params (event h))) as [args|e];
      [|left; reflexivity].
    right. exists args. split; [reflexivity|].
    destruct (set_relation_certificate args (relations (self h)))
      as [rels' [[]|e]]; [reflexivity|].
    destruct (issubclass e RuntimeError); reflexivity.
Qed.

End Issuance.

Section IssuanceProperties.

Context {RT : Runtime} {HP : Helpers}
        {TLS : TLSCertificatesProvidesV2 CERTIFICATES_RELATION}.

Lemma decoded_text_eq (x : str) (raw : bytes) :
  b64decode x = Ok raw -> decoded_text x = bytes_decode raw.
Proof. intros H. unfold decoded_text. cbn. rewrite H. reflexivity. Qed.

(** C1, as amended.  Let base64 decoding fail with [binascii.Error] or
    [TypeError], or structural validation of one of the four parts fail.
    Then, in every state, the action leaves the charm as it was (the
    relation data is unchanged and no method of the charm library, so no
    [set_relation_certificate], is called) and sets no result; and in a
    state where a [certificates] relation exists it ends by failing the
    event with "Action input is not valid.". *)
Theorem provide_rejects_invalid_input (h : Hook) :
  let p := params (event h) in
  let h' := fst (_on_provide_certificate_action h) in
  decoding_fails p \/ structure_fails p ->
  (self h' = self h
   /\ tls_calls (self h') = tls_calls (self h)
   /\ relations (self h') = relations (self h)
   /\ results (event h') = results (event h))
  /\ (relations_named (relations (self h)) CERTIFICATES_RELATION <> [] ->
      _on_provide_certificate_action h = (failed_with INVALID_INPUT h, Ok tt)).
Proof.
  intros p h' Hfail. apply validate_false_iff in Hfail.
  assert (G : relations_named (relations (self h)) CERTIFICATES_RELATION <> []
              -> _on_provide_certificate_action h
                 = (failed_with INVALID_INPUT h, Ok tt)).
  { intros H. rewrite (provide_with_relation h H). fold p. rewrite Hfail.
    reflexivity. }
  split; [|exact G]. subst h'.
  destruct (relations_named (relations (self h)) CERTIFICATES_RELATION)
    as [|r rels] eqn:E.
  - rewrite (provide_action_without_relation h E). repeat split.
  - rewrite G by discriminate. repeat split.
Qed.

(** C5.  The only call the action makes into the charm library is
    [set_relation_certificate], at most once, and its arguments are: the
    request, the certificate and the CA certificate each base64-decoded,
    decoded as UTF-8 and stripped of surrounding white space, the blocks
    [parse_ca_chain] finds in the decoded chain text, and the relation
    id.  The call is made whenever a relation exists, validation passes
    and the three payloads decode. *)
Theorem provide_passes_trimmed_payloads (h : Hook) :
  let p := params (event h) in
  let h' := fst (_on_provide_certificate_action h) in
  let issued csr_text certificate_text ca_text chain_text :=
    {| issued_certificate_signing_request := strip csr_text;
       issued_certificate := strip certificate_text;
       issued_ca := strip ca_text;
       issued_chain := parse_ca_chain chain_text;
       issued_relation_id := relation_id p |} in
  (tls_calls (self h') = tls_calls (self h)
   \/ exists csr_text certificate_text ca_text chain_text,
        decoded_text (certificate_signing_request p) = Ok csr_text
        /\ decoded_text (certificate p) = Ok certificate_text
        /\ decoded_text (ca_certificate p) = Ok ca_text
        /\ decoded_text (ca_chain p) = Ok chain_text
        /\ trimmed csr_text (strip csr_text)
        /\ trimmed certificate_text (strip certificate_text)
        /\ trimmed ca_text (strip ca_text)
        /\ tls_calls (self h') =
             tls_calls (self h)
             ++ [Call_set_relation_certificate
                   (issued csr_text certificate_text ca_text chain_text)])
  /\ (relations_named (relations (self h)) CERTIFICATES_RELATION <> [] ->
      validate p = Ok true ->
      forall csr_text certificate_text ca_text,
        decoded_text (certificate_signing_request p) = Ok csr_text ->
        decoded_text (certificate p) = Ok certificate_text ->
        decoded_text (ca_certificate p) = Ok ca_text ->
        exists chain_text,
          decoded_text (ca_chain p) = Ok chain_text
          /\ tls_calls (self h') =
               tls_calls (self h)
               ++ [Call_set_relation_certificate
                     (issued csr_text certificate_text ca_text chain_text)]).
Proof.
  intros p h' issued. split.
  - destruct (provide_calls h) as [H|(args & Hargs & Hcalls)].
    + left. fold h' in H. rewrite H. reflexivity.
    + right. apply issued_of_params_ok in Hargs.
      destruct Hargs as (csr_text & certificate_text & ca_text & chain_text
                         & H1 & H2 & H3 & H4 & ->).
      exists csr_text, certificate_text, ca_text, chain_text.
      repeat split; try assumption; apply strip_trimmed.
  - intros Hrel Hvalid csr_text certificate_text ca_text H1 H2 H3.
    apply validate_true_iff in Hvalid as Hpass.
    destruct Hpass as (cert & ca_cert & csr & chain & chain_text
                       & (_ & _ & _ & Hchain) & _ & _ & _ & Htext & _).
    exists chain_text.
    assert (H4 : decoded_text (ca_chain p) = Ok chain_text)
      by (rewrite (decoded_text_eq _ Hchain); exact Htext).
    split; [exact H4|].
    assert (Hargs : issued_of_params p
                    = Ok (issued csr_text certificate_text ca_text chain_text)).
    { apply issued_of_params_ok.
      exists csr_text, certificate_text, ca_text, chain_text. auto. }
    subst h'. rewrite (provide_with_relation h Hrel). fold p.
    rewrite Hvalid, Hargs.
    destruct (set_relation_certificate _ (relations (self h)))
      as [rels' [[]|e]]; [reflexivity|].
    destruct (issubclass e RuntimeError); reflexivity.
Qed.

(** When the attach step raises a [RuntimeError], the action fails the
    event with the relation-not-found message and sets no result. *)
Lemma provide_catches_runtime_error (h : Hook) (args : Issued)
  (rels : RelationMapping) (e : exn) :
  relations_named (relations (self h)) CERTIFICATES_RELATION <> [] ->
  validate (params (event h)) = Ok true ->
  issued_of_params (params (event h)) = Ok args ->
  set_relation_certificate args (relations (self h)) = (rels, Raise e) ->
  issubclass e RuntimeError = true ->
  _on_provide_certificate_action h
  = (failed_with RELATION_NOT_FOUND
       {| self := with_relations rels
                    (with_call (Call_set_relation_certificate args) (self h));
          event := event h |},
     Ok tt).
Proof.
  intros Hrel Hvalid Hargs Hset He.
  rewrite (provide_with_relation h Hrel), Hvalid, Hargs, Hset, He.
  reflexivity.
Qed.

End IssuanceProperties.

(** ** The actions over the Request Ledger *)

Import Ledger.

Section OverLedger.

Context {RT : Runtime} {HP : Helpers}.

Lemma get_relation_none (rels : list Relation) (rid : Z) :
  (forall r, In r rels -> rel_id r <> rid) -> get_relation rels rid = None.
Proof.
  intros H. unfold get_relation.
  destruct (find (fun r => Z.eqb (rel_id r) rid) rels) as [r|] eqn:E;
    [|reflexivity].
  apply find_some in E. destruct E as [Hin Heq].
  apply Z.eqb_eq in Heq. exfalso. exact (H r Hin Heq).
Qed.

Lemma get_relation_in (rels : list Relation) (r : Relation) :
  NoDup (map rel_id rels) -> In r rels ->
  get_relation rels (rel_id r) = Some r.
Proof.
  unfold get_relation. induction rels as [|a rels IH]; simpl.
  - intros _ [].
  - intros Hnodup Hin. inversion Hnodup as [|x l Hnotin Hrest]; subst.
    destruct (Z.eqb (rel_id a) (rel_id r)) eqn:E.
    + destruct Hin as [->|Hin]; [reflexivity|].
      apply Z.eqb_eq in E. exfalso. apply Hnotin. rewrite E.
      apply in_map, Hin.
    + destruct Hin as [->|Hin]; [rewrite Z.eqb_refl in E; discriminate|].
      apply IH; assumption.
Qed.

(** The attach step on a relation id without session raises
    [NotFoundError] and leaves the relation data as it was, whatever the
    request text. *)
Lemma attach_unknown_relation (args : Issued) (m : RelationMapping) :
  (forall r, In r (relations_named m CERTIFICATES_RELATION) ->
             rel_id r <> issued_relation_id args) ->
  set_relation_certificate (relationship_name := CERTIFICATES_RELATION)
    args m
  = (m, Raise NotFoundError).
Proof.
  intros H.
  change (attachCertificate CERTIFICATES_RELATION args m
          = (m, Raise NotFoundError)).
  unfold attachCertificate, sessions.
  rewrite (get_relation_none _ H). reflexivity.
Qed.

(** C2, as amended.  In a state where a [certificates] relation exists,
    let the input pass validation, let the request, the certificate and
    the CA certificate decode as UTF-8, and let no session have the given
    relation id.  Then the action ends by failing the event with
    "Relation does not exist with the provided id.", which is neither
    the invalid-input nor the no-relation message; no result is set and
    the relation data is unchanged.  The state is arbitrary, so the
    request may well match an entry of another relation. *)
Theorem provide_reports_unknown_relation (h : Hook) :
  let p := params (event h) in
  let sessions := relations_named (relations (self h)) CERTIFICATES_RELATION in
  sessions <> [] ->
  validate p = Ok true ->
  (exists csr_text certificate_text ca_text,
     decoded_text (certificate_signing_request p) = Ok csr_text
     /\ decoded_text (certificate p) = Ok certificate_text
     /\ decoded_text (ca_certificate p) = Ok ca_text) ->
  (forall r, In r sessions -> rel_id r <> relation_id p) ->
  exists h',
    _on_provide_certificate_action h = (h', Ok tt)
    /\ failed (event h') = Some RELATION_NOT_FOUND
    /\ results (event h') = results (event h)
    /\ relations (self h') = relations (self h)
    /\ RELATION_NOT_FOUND <> INVALID_INPUT
    /\ RELATION_NOT_FOUND <> NO_RELATION.
Proof.
  intros p sessions Hrel Hvalid (csr_text & certificate_text & ca_text
                                 & H1 & H2 & H3) Hunknown.
  apply validate_true_iff in Hvalid as Hpass.
  destruct Hpass as (cert & ca_cert & csr & chain & chain_text
                     & (_ & _ & _ & Hchain) & _ & _ & _ & Htext & _).
  assert (H4 : decoded_text (ca_chain p) = Ok chain_text)
    by (rewrite (decoded_text_eq _ Hchain); exact Htext).
  assert (Hargs : exists args,
             issued_of_params p = Ok args
             /\ issued_relation_id args = relation_id p).
  { eexists. split.
    - apply issued_of_params_ok.
      exists csr_text, certificate_text, ca_text, chain_text. auto.
    - reflexivity. }
  destruct Hargs as (args & Hargs & Hrid).
  assert (Hset : set_relation_certificate
                   (relationship_name := CERTIFICATES_RELATION)
                   args (relations (self h))
                 = (relations (self h), Raise NotFoundError)).
  { apply attach_unknown_relation. rewrite Hrid. exact Hunknown. }
  eexists. split.
  - apply (provide_catches_runtime_error h Hrel Hvalid Hargs Hset).
    reflexivity.
  - repeat split; discriminate.
Qed.

Lemma request_with_relation (h : Hook) :
  relations_named (relations (self h)) CERTIFICATES_RELATION <> [] ->
  _on_get_certificate_request_action h
  = let rid := relation_id (params (event h)) in
    let called :=
      {| self := with_call (Call_get_requirer_csrs rid) (self h);
         event := event h |} in
    match listByRequester CERTIFICATES_RELATION rid (relations (self h)) with
    | Ok requests =>
        ({| self := self called;
            event := {| params := params (event h);
                        failed := failed (event h);
                        results := Some (ResultRequests requests) |} |},
         Ok tt)
    | Raise e => (called, Raise e)
    end.
Proof.
  intros H. unfold _on_get_certificate_request_action.
  rewrite run_bind, guard_eq, (truthy_true H).
  cbn [negb].
  rewrite run_bind. unfold event_params at 1.
  rewrite run_bind. unfold on_self, tls_get_requirer_csrs.
  change (get_requirer_csrs (relation_id (params (event h)))
            (relations (self h)))
    with (listByRequester CERTIFICATES_RELATION
            (relation_id (params (event h))) (relations (self h))).
  destruct (listByRequester _ _ _); reflexivity.
Qed.

(** C4, as amended.  In a state where no [certificates] relation exists
    the action fails the event with the no-relation message, whatever
    the relation id, and raises nothing.  For the id of an existing
    session the action sets as its result the units of that relation,
    each with all its requests, a request carrying the certificate, CA
    and chain attached to it when it is fulfilled; the event is not
    failed and the relation data is unchanged. *)
Theorem request_action_by_relation (h : Hook) :
  let rid := relation_id (params (event h)) in
  let sessions := relations_named (relations (self h)) CERTIFICATES_RELATION in
  (sessions = [] ->
   _on_get_certificate_request_action h = (failed_with NO_RELATION h, Ok tt))
  /\ (forall r,
        NoDup (map rel_id sessions) -> In r sessions -> rel_id r = rid ->
        exists h',
          _on_get_certificate_request_action h = (h', Ok tt)
          /\ results (event h') = Some (ResultRequests (rel_units r))
          /\ failed (event h') = failed (event h)
          /\ relations (self h') = relations (self h)).
Proof.
  intros rid sessions. subst rid sessions. split.
  - intros Hnone. apply request_action_without_relation, Hnone.
  - intros r Hnodup Hin Hid.
    assert (Hrel : relations_named (relations (self h)) CERTIFICATES_RELATION
                   <> [])
      by (intros E; rewrite E in Hin; destruct Hin).
    rewrite (request_with_relation h Hrel).
    cbv zeta. unfold listByRequester, Ledger.sessions.
    rewrite <- Hid, (get_relation_in _ _ Hnodup Hin).
    eexists. split; [reflexivity|]. repeat split.
Qed.

End OverLedger.

(** ** The actions on concrete inputs *)

Import Reference.

Lemma first_part_undecodable (p : Params) (e : exn) :
  b64decode (certificate p) = Raise e -> first_raise (encoded_parts p) e.
Proof.
  intros H. exists [], (certificate p). eexists.
  split; [reflexivity|]. split; [constructor|exact H].
Qed.

Lemma undecodable_params_fail : decoding_fails undecodable_params.
Proof.
  exists BinasciiError. split; [|left; reflexivity].
  apply first_part_undecodable. reflexivity.
Qed.

Lemma provide_rejects_invalid_input_witness :
  let h := a_hook [a_relation] undecodable_params in
  (decoding_fails (params (event h)) \/ structure_fails (params (event h)))
  /\ _on_provide_certificate_action h = (failed_with INVALID_INPUT h, Ok tt)
  /\ relations (self (fst (_on_provide_certificate_action h)))
     = relations (self h).
Proof.
  intros h.
  assert (Hfail : decoding_fails (params (event h))
                  \/ structure_fails (params (event h)))
    by (left; exact undecodable_params_fail).
  assert (Hrel : relations_named (relations (self h)) CERTIFICATES_RELATION
                 <> []) by (vm_compute; discriminate).
  split; [exact Hfail|]. split.
  - exact (proj2 (provide_rejects_invalid_input h Hfail) Hrel).
  - exact (proj1 (proj2 (proj2 (proj1
             (provide_rejects_invalid_input h Hfail))))).
Defined.

(** C1 as stated fails where no relation exists: the input does not
    decode, and the action fails with the no-relation message, not with
    the invalid-input one. *)
Lemma provide_invalid_input_without_relation :
  let h := a_hook [] undecodable_params in
  decoding_fails (params (event h))
  /\ _on_provide_certificate_action h = (failed_with NO_RELATION h, Ok tt)
  /\ failed (event (fst (_on_provide_certificate_action h)))
     <> Some INVALID_INPUT.
Proof.
  intros h. split; [exact undecodable_params_fail|].
  split; [reflexivity|]. vm_compute. discriminate.
Qed.

(** The scenario of the design: a certificate that is valid base64 of
    text that is no PEM object is refused, and the relation data is
    unchanged. *)
Example provide_rejects_garbage_certificate :
  let p := some_params 7 (b64 (py "not a certificate"))
             (b64 a_ca_certificate) (b64 a_csr) (b64 a_certificate) in
  let h := a_hook [a_relation] p in
  _on_provide_certificate_action h = (failed_with INVALID_INPUT h, Ok tt).
Proof. vm_compute. reflexivity. Qed.

Lemma provide_passes_trimmed_payloads_witness :
  let h := a_hook [a_relation] (good_params 7) in
  exists chain_text,
    decoded_text (ca_chain (params (event h))) = Ok chain_text
    /\ tls_calls (self (fst (_on_provide_certificate_action h)))
       = tls_calls (self h)
         ++ [Call_set_relation_certificate
               {| issued_certificate_signing_request := strip a_csr;
                  issued_certificate := strip a_certificate;
                  issued_ca := strip a_ca_certificate;
                  issued_chain := parse_ca_chain chain_text;
                  issued_relation_id := 7 |}].
Proof.
  intros h.
  assert (Hrel : relations_named (relations (self h)) CERTIFICATES_RELATION
                 <> []) by (vm_compute; discriminate).
  assert (Hvalid : validate (params (event h)) = Ok true)
    by (vm_compute; reflexivity).
  assert (H1 : decoded_text (certificate_signing_request (params (event h)))
               = Ok a_csr) by (vm_compute; reflexivity).
  assert (H2 : decoded_text (certificate (params (event h)))
               = Ok a_certificate) by (vm_compute; reflexivity).
  assert (H3 : decoded_text (ca_certificate (params (event h)))
               = Ok a_ca_certificate) by (vm_compute; reflexivity).
  exact (proj2 (provide_passes_trimmed_payloads h) Hrel Hvalid
           a_csr a_certificate a_ca_certificate H1 H2 H3).
Defined.

(** The request of [good_params] is the one outstanding under relation
    7; under the id 8 it is still refused as an unknown relation. *)
Lemma provide_reports_unknown_relation_witness :
  let h := a_hook [a_relation] (good_params 8) in
  exists h',
    _on_provide_certificate_action h = (h', Ok tt)
    /\ failed (event h') = Some RELATION_NOT_FOUND
    /\ results (event h') = results (event h)
    /\ relations (self h') = relations (self h)
    /\ RELATION_NOT_FOUND <> INVALID_INPUT
    /\ RELATION_NOT_FOUND <> NO_RELATION.
Proof.
  intros h.
  assert (Hrel : relations_named (relations (self h)) CERTIFICATES_RELATION
                 <> []) by (vm_compute; discriminate).
  assert (Hvalid : validate (params (event h)) = Ok true)
    by (vm_compute; reflexivity).
  assert (Htexts : exists csr_text certificate_text ca_text,
             decoded_text (certificate_signing_request (params (event h)))
             = Ok csr_text
             /\ decoded_text (certificate (params (event h)))
                = Ok certificate_text
             /\ decoded_text (ca_certificate (params (event h)))
                = Ok ca_text).
  { exists a_csr, a_certificate, a_ca_certificate.
    repeat split; vm_compute; reflexivity. }
  assert (Hunknown : forall r,
             In r (relations_named (relations (self h)) CERTIFICATES_RELATION)
             -> rel_id r <> relation_id (params (event h))).
  { intros r [<-|[]]. vm_compute. discriminate. }
  exact (provide_reports_unknown_relation h Hrel Hvalid Htexts Hunknown).
Defined.

(** C2 as stated fails where no relation exists: the input passes
    validation, no session has the id, and the action fails with the
    no-relation message without reaching the attach step. *)
Lemma provide_unknown_relation_without_relation :
  let h := a_hook [] (good_params 7) in
  let h' := fst (_on_provide_certificate_action h) in
  validate (params (event h)) = Ok true
  /\ (forall r,
        In r (relations_named (relations (self h)) CERTIFICATES_RELATION) ->
        rel_id r <> relation_id (params (event h)))
  /\ _on_provide_certificate_action h = (failed_with NO_RELATION h, Ok tt)
  /\ tls_calls (self h') = []
  /\ failed (event h') <> Some RELATION_NOT_FOUND.
Proof.
  intros h h'. split; [vm_compute; reflexivity|].
  split; [intros r []|]. split; [reflexivity|]. split; [reflexivity|].
  vm_compute. discriminate.
Qed.

Lemma request_action_by_relation_witness :
  let none := a_hook [] (good_params 7) in
  let known := a_hook [a_relation] (good_params 7) in
  _on_get_certificate_request_action none = (failed_with NO_RELATION none, Ok tt)
  /\ (exists h',
        _on_get_certificate_request_action known = (h', Ok tt)
        /\ results (event h') = Some (ResultRequests (rel_units a_relation))
        /\ failed (event h') = failed (event known)
        /\ relations (self h') = relations (self known)).
Proof.
  intros none known. split.
  - apply (proj1 (request_action_by_relation none)). reflexivity.
  - apply (proj2 (request_action_by_relation known) a_relation).
    + vm_compute. repeat constructor. intros [].
    + left. reflexivity.
    + reflexivity.
Defined.

(** C4 as stated fails where no relation exists: no session has the id,
    and the action ends normally, failing the event with the no-relation
    message; no [NotFoundError] is raised. *)
Lemma request_action_without_relation_not_found :
  let h := a_hook [] (good_params 7) in
  (forall r,
     In r (relations_named (relations (self h)) CERTIFICATES_RELATION) ->
     rel_id r <> relation_id (params (event h)))
  /\ _on_get_certificate_request_action h = (failed_with NO_RELATION h, Ok tt)
  /\ snd (_on_get_certificate_request_action h) <> Raise NotFoundError.
Proof.
  intros h. split; [intros r []|]. split; [reflexivity|].
  vm_compute. discriminate.
Qed.

(** C3 at its failing inputs.  With the first three parts accepted and a
    chain whose octets are not UTF-8 (["/w=="] is the single octet
    0xFF), [_action_certificates_are_valid] returns no boolean: the
    [UnicodeDecodeError] of [ca_chain_bytes.decode()], raised after the
    [try] block, leaves it and the action, and the event is not failed.
    A parameter with a character outside ASCII does the same with the
    [ValueError] of [b64decode], which the [except] clause does not
    name. *)
Lemma validation_lets_exceptions_out :
  let not_text := some_params 7 (b64 a_certificate) (b64 a_ca_certificate)
                    (b64 a_csr) (py "/w==") in
  let not_ascii := some_params 7 [233%N] (b64 a_ca_certificate)
                     (b64 a_csr) (b64 a_certificate) in
  validate not_text = Raise UnicodeDecodeError
  /\ _on_provide_certificate_action (a_hook [a_relation] not_text)
     = (a_hook [a_relation] not_text, Raise UnicodeDecodeError)
  /\ validate not_ascii = Raise ValueError
  /\ _on_provide_certificate_action (a_hook [a_relation] not_ascii)
     = (a_hook [a_relation] not_ascii, Raise ValueError).
Proof. repeat split; vm_compute; reflexivity. Qed.

(** One unit with two outstanding requests: the status counts requests,
    not units. *)
Example creation_request_counts_requests :
  let two := {| rel_id := 3;
                rel_units :=
                  [{| unit_name := py "requirer/0";
                      unit_entries :=
                        [{| entry_csr := py "first"; entry_issued := None |};
                         {| entry_csr := py "second"; entry_issued := None |}]
                   |}] |} in
  status (fst (_on_certificate_creation_request (a_charm [two])))
  = ActiveStatus
      (py "2 outstanding requests, use juju actions to provide certificates").
Proof. vm_compute. reflexivity. Qed.

Lemma creation_request_reports_total_witness :
  let two := {| rel_id := 3;
                rel_units :=
                  [{| unit_name := py "requirer/0";
                      unit_entries :=
                        [{| entry_csr := py "first"; entry_issued := None |};
                         {| entry_csr := py "second"; entry_issued := None |}]
                   |}] |} in
  let c := a_charm [two] in
  (exists c' numeral,
     _on_certificate_creation_request c = (c', Ok tt)
     /\ status c' =
          ActiveStatus
            (numeral
             ++ py " outstanding requests, use juju actions to provide certificates")
     /\ decimal_value numeral = Some 2
     /\ relations c' = relations c)
  /\ length (rel_units two) = 1
  /\ status (fst (_on_certificate_creation_request c))
     = ActiveStatus
         (py "2 outstanding requests, use juju actions to provide certificates").
Proof.
  intros two c. split.
  - exact (creation_request_reports_total c).
  - split; vm_compute; reflexivity.
Defined.

(** ** [parse_ca_chain] *)

Lemma find_marker_eq (marker s : str) :
  find_marker marker s
  = if starts_with marker s then Some ([], skipn (length marker) s)
    else
      match s with
      | [] => None
      | c :: s' =>
          match find_marker marker s' with
          | Some (before, after) => Some (c :: before, after)
          | None => None
          end
      end.
Proof. destruct s; reflexivity. Qed.

Lemma starts_with_app (marker rest : str) :
  starts_with marker (marker ++ rest) = true.
Proof.
  induction marker as [|a marker IH]; simpl.
  - reflexivity.
  - rewrite N.eqb_refl. exact IH.
Qed.

Lemma starts_with_true (marker s : str) :
  starts_with marker s = true -> exists rest, s = marker ++ rest.
Proof.
  revert s. induction marker as [|a marker IH]; intros s H; simpl in *.
  - exists s. reflexivity.
  - destruct s as [|b s]; [discriminate|].
    apply andb_true_iff in H. destruct H as [Hab H].
    apply N.eqb_eq in Hab. subst b.
    destruct (IH s H) as [rest ->]. exists rest. reflexivity.
Qed.

Lemma skipn_marker (marker rest : str) :
  skipn (length marker) (marker ++ rest) = rest.
Proof. induction marker; simpl; auto. Qed.

Lemma starts_with_other (c : codepoint) (marker s : str) :
  c <> DASH -> starts_with (DASH :: marker) (c :: s) = false.
Proof.
  intros H. cbn [starts_with]. destruct (N.eqb DASH c) eqn:E; [|reflexivity].
  apply N.eqb_eq in E. congruence.
Qed.

Lemma find_marker_cons (marker s : str) (c : codepoint) :
  starts_with marker (c :: s) = false ->
  find_marker marker (c :: s)
  = match find_marker marker s with
    | Some (before, after) => Some (c :: before, after)
    | None => None
    end.
Proof. intros H. rewrite find_marker_eq, H. reflexivity. Qed.

(** Past dash-free text, the first occurrence of a delimiter is where
    the delimiter stands. *)
Lemma find_marker_after_dashless (marker before rest : str) :
  dashless before ->
  find_marker (DASH :: marker) (before ++ (DASH :: marker) ++ rest)
  = Some (before, rest).
Proof.
  intros H. induction H as [|c before Hc _ IH].
  - rewrite find_marker_eq. cbn [app].
    change (DASH :: marker ++ rest) with ((DASH :: marker) ++ rest).
    rewrite starts_with_app, skipn_marker. reflexivity.
  - rewrite <- app_comm_cons.
    rewrite (@find_marker_cons _ _ _ (@starts_with_other c marker _ Hc)), IH.
    reflexivity.
Qed.

Lemma starts_with_skipn (marker s : str) :
  starts_with marker s = true -> s = marker ++ skipn (length marker) s.
Proof.
  intros H. destruct (starts_with_true _ _ H) as [rest ->].
  rewrite skipn_marker. reflexivity.
Qed.

Lemma find_marker_sound (marker s before after : str) :
  find_marker marker s = Some (before, after) ->
  s = before ++ marker ++ after.
Proof.
  revert before. induction s as [|c s IH]; intros before;
    rewrite find_marker_eq.
  - destruct (starts_with marker []) eqn:E; [|discriminate].
    intros H. injection H as <- <-.
    exact (starts_with_skipn _ _ E).
  - destruct (starts_with marker (c :: s)) eqn:E.
    + intros H. injection H as <- <-.
      exact (starts_with_skipn _ _ E).
    + destruct (find_marker marker s) as [[b a]|]; [|discriminate].
      intros H. injection H as <- <-.
      rewrite (IH b eq_refl). reflexivity.
Qed.

Lemma find_marker_absent (marker s : str) :
  ~ occurs marker s -> find_marker marker s = None.
Proof.
  induction s as [|c s IH]; intros H; rewrite find_marker_eq.
  - destruct (starts_with marker []) eqn:E; [|reflexivity].
    apply starts_with_true in E. destruct E as [rest E].
    exfalso. apply H. exists [], rest. exact E.
  - destruct (starts_with marker (c :: s)) eqn:E.
    + apply starts_with_true in E. destruct E as [rest E].
      exfalso. apply H. exists [], rest. exact E.
    + rewrite IH; [reflexivity|].
      intros (before & after & Hs). apply H.
      exists (c :: before), after. rewrite Hs. reflexivity.
Qed.

Lemma dashless_no_marker (marker s : str) :
  dashless s -> ~ occurs (DASH :: marker) s.
Proof.
  intros H (before & after & Hs). subst s.
  unfold dashless in H. rewrite Forall_forall in H.
  apply (H DASH); [|reflexivity].
  apply in_or_app. right. left. reflexivity.
Qed.

Lemma BEGIN_CERTIFICATE_dash :
  BEGIN_CERTIFICATE = DASH :: tl BEGIN_CERTIFICATE.
Proof. reflexivity. Qed.

Lemma END_CERTIFICATE_dash : END_CERTIFICATE = DASH :: tl END_CERTIFICATE.
Proof. reflexivity. Qed.

Lemma parse_blocks_step (fuel : nat) (lead body rest : str) :
  dashless lead -> dashless body ->
  parse_blocks (S fuel) (lead ++ pem_block body ++ rest)
  = pem_block body :: parse_blocks fuel rest.
Proof.
  intros Hlead Hbody. unfold pem_block. cbn [parse_blocks].
  repeat rewrite <- app_assoc.
  rewrite BEGIN_CERTIFICATE_dash at 1 2.
  rewrite (find_marker_after_dashless _ _ Hlead).
  rewrite END_CERTIFICATE_dash at 1 2.
  rewrite (find_marker_after_dashless _ _ Hbody).
  reflexivity.
Qed.

Lemma parse_blocks_dashless (fuel : nat) (s : str) :
  dashless s -> parse_blocks fuel s = [].
Proof.
  intros H. destruct fuel; [reflexivity|]. cbn [parse_blocks].
  rewrite find_marker_absent; [reflexivity|].
  rewrite BEGIN_CERTIFICATE_dash. apply dashless_no_marker, H.
Qed.

Lemma parse_blocks_chain (items : list (str * str)) :
  forall (fuel : nat) (lead : str),
    length items <= fuel ->
    dashless lead ->
    Forall (fun item => dashless (fst item) /\ dashless (snd item)) items ->
    parse_blocks fuel (lead ++ chain_blob items)
    = map (fun item => pem_block (fst item)) items.
Proof.
  induction items as [|[body separator] items IH];
    intros fuel lead Hfuel Hlead Hitems.
  - cbn [chain_blob map]. rewrite app_nil_r.
    apply parse_blocks_dashless, Hlead.
  - inversion Hitems as [|x l [Hbody Hsep] Hrest]; subst.
    cbn [fst snd] in Hbody, Hsep.
    destruct fuel as [|fuel]; [simpl in Hfuel; lia|].
    cbn [chain_blob map fst].
    rewrite (parse_blocks_step fuel _ Hlead Hbody).
    rewrite IH; [reflexivity| simpl in Hfuel; lia | exact Hsep | exact Hrest].
Qed.

Lemma chain_blob_length (items : list (str * str)) :
  length items <= length (chain_blob items).
Proof.
  induction items as [|[body separator] items IH]; simpl.
  - lia.
  - unfold pem_block. repeat rewrite length_app.
    assert (length BEGIN_CERTIFICATE = 27) by reflexivity. lia.
Qed.

(** Fuel beyond the length of the text changes nothing: [parse_ca_chain]
    never stops for want of fuel. *)
Lemma parse_blocks_fuel (fuel : nat) :
  forall (fuel' : nat) (s : str),
    length s <= fuel -> length s <= fuel' ->
    parse_blocks fuel s = parse_blocks fuel' s.
Proof.
  assert (Hnil : forall f, parse_blocks f [] = []) by (destruct f; reflexivity).
  induction fuel as [|fuel IH]; intros fuel' s H H'.
  - destruct s; [|simpl in H; lia]. rewrite !Hnil. reflexivity.
  - destruct fuel' as [|fuel'].
    { destruct s; [|simpl in H'; lia]. rewrite !Hnil. reflexivity. }
    cbn [parse_blocks].
    destruct (find_marker BEGIN_CERTIFICATE s) as [[before opened]|] eqn:E1;
      [|reflexivity].
    destruct (find_marker END_CERTIFICATE opened) as [[body rest]|] eqn:E2;
      [|reflexivity].
    apply find_marker_sound in E1, E2. f_equal.
    assert (length rest < length s).
    { rewrite E1, E2. repeat rewrite length_app.
      assert (length BEGIN_CERTIFICATE = 27) by reflexivity. lia. }
    apply IH; lia.
Qed.

(** C8.  For a blob made of [n] PEM certificate blocks whose bodies, and
    the text before, between and after them, hold no hyphen,
    [parse_ca_chain] returns the [n] blocks, delimiters included, in the
    order of the blob.  For a text in which the BEGIN delimiter does not
    occur it returns the empty list; it has no other kind of result. *)
Theorem parse_ca_chain_blocks :
  (forall (lead : str) (items : list (str * str)),
     dashless lead ->
     Forall (fun item => dashless (fst item) /\ dashless (snd item)) items ->
     parse_ca_chain (lead ++ chain_blob items)
     = map (fun item => pem_block (fst item)) items
     /\ length (parse_ca_chain (lead ++ chain_blob items)) = length items)
  /\ (forall s : str, ~ occurs BEGIN_CERTIFICATE s -> parse_ca_chain s = []).
Proof.
  split.
  - intros lead items Hlead Hitems.
    assert (E : parse_ca_chain (lead ++ chain_blob items)
                = map (fun item => pem_block (fst item)) items).
    { unfold parse_ca_chain. apply parse_blocks_chain; try assumption.
      rewrite length_app. pose proof (chain_blob_length items). lia. }
    split; [exact E|]. rewrite E. apply length_map.
  - intros s H. unfold parse_ca_chain.
    destruct (length s); [reflexivity|]. cbn [parse_blocks].
    rewrite (find_marker_absent H). reflexivity.
Qed.

Lemma parse_ca_chain_blocks_witness :
  let items := [(newline ++ py "MIIBtjCCAVyg" ++ newline, newline);
                (newline ++ py "MIIBszCCAVmg" ++ newline, newline)] in
  parse_ca_chain (chain_blob items)
  = [pem_block (newline ++ py "MIIBtjCCAVyg" ++ newline);
     pem_block (newline ++ py "MIIBszCCAVmg" ++ newline)]
  /\ parse_ca_chain (py "no certificate here") = [].
Proof.
  intros items.
  assert (Hitems : Forall (fun item => dashless (fst item)
                                        /\ dashless (snd item)) items)
    by (repeat constructor; vm_compute; intros c; discriminate).
  assert (Habsent : ~ occurs BEGIN_CERTIFICATE (py "no certificate here")).
  { rewrite BEGIN_CERTIFICATE_dash. apply dashless_no_marker.
    repeat constructor; vm_compute; intros c; discriminate. }
  split.
  - exact (proj1 (proj1 parse_ca_chain_blocks [] items (Forall_nil _) Hitems)).
  - exact (proj2 parse_ca_chain_blocks _ Habsent).
Defined.

(** * Further properties of the charm *)

(** ** Construction and the relation check *)

Section MoreOnConstruction.

Context {TLS : TLSCertificatesProvidesV2 CERTIFICATES_RELATION}.

Lemma observers_fold (l : list Observer) (c : Charm) :
  let c' := fold_left (fun c1 o => with_observer o c1) l c in
  observers c' = observers c ++ l
  /\ is_leader c' = is_leader c /\ relations c' = relations c
  /\ status c' = status c /\ tls_calls c' = tls_calls c.
Proof.
  revert c. induction l as [|o l IH]; intros c; simpl.
  - rewrite app_nil_r. repeat split.
  - destruct (IH (with_observer o c)) as (H1 & H2 & H3 & H4 & H5).
    rewrite H1, H2, H3, H4, H5. simpl. rewrite <- app_assoc.
    repeat split.
Qed.

(** X1.  On the leader [__init__] completes.  It keeps the observers it
    found, adds those of the charm library and then, in the order of the
    source, the five of the charm: install, certificate creation request
    and the three actions, each with its own handler.  Leadership,
    relation data, status and the history of library calls are as
    before. *)
Theorem init_observes_on_leader (c : Charm) :
  is_leader c = true ->
  exists c',
    __init__ c = (c', Ok tt)
    /\ observers c' =
         observers c ++ provides_observers
         ++ [(on_install, handler_on_install);
             (on_certificate_creation_request,
              handler_on_certificate_creation_request);
             (on_get_outstanding_certificate_requests_action,
              handler_on_get_outstanding_certificate_requests_action);
             (on_get_certificate_request_action,
              handler_on_get_certificate_request_action);
             (on_provide_certificate_action,
              handler_on_provide_certificate_action)]
    /\ is_leader c' = true
    /\ relations c' = relations c
    /\ status c' = status c
    /\ tls_calls c' = tls_calls c.
Proof.
  intros H. unfold __init__. cbn. rewrite H. cbn.
  eexists. split; [reflexivity|]. cbn.
  destruct (observers_fold provides_observers c) as (H1 & H2 & H3 & H4 & H5).
  cbv zeta in H1, H2, H3, H4, H5.
  split; [|split; [rewrite <- H; exact H2|]; split; [exact H3|];
           split; [exact H4|exact H5]].
  repeat rewrite <- app_assoc. cbn [app].
  rewrite (app_assoc (observers c)). f_equal. exact H1.
Qed.

End MoreOnConstruction.

Lemma init_observes_on_leader_witness :
  let c := a_charm [] in
  is_leader c = true
  /\ exists c',
       __init__ c = (c', Ok tt)
       /\ observers c' =
            library_observers CERTIFICATES_RELATION
            ++ [(on_install, handler_on_install);
                (on_certificate_creation_request,
                 handler_on_certificate_creation_request);
                (on_get_outstanding_certificate_requests_action,
                 handler_on_get_outstanding_certificate_requests_action);
                (on_get_certificate_request_action,
                 handler_on_get_certificate_request_action);
                (on_provide_certificate_action,
                 handler_on_provide_certificate_action)]
       /\ is_leader c' = true
       /\ relations c' = relations c
       /\ status c' = status c
       /\ tls_calls c' = tls_calls c.
Proof.
  intros c. split; [reflexivity|].
  exact (init_observes_on_leader c eq_refl).
Defined.

(** X2.  [_relation_created] returns [True] exactly when the relation
    mapping holds the name with a list of at least one relation. *)
Theorem relation_created_true_iff (name : str) (c : Charm) :
  _relation_created name c = (c, Ok true)
  <-> exists r rs, relations_getitem (relations c) name = Ok (r :: rs).
Proof.
  rewrite relation_created_eq. unfold relations_named. split.
  - destruct (relations_getitem (relations c) name) as [[|r rs]|e];
      try discriminate.
    intros _. exists r, rs. reflexivity.
  - intros (r & rs & ->). reflexivity.
Qed.

(** ** Listing the requests *)

Section MoreOnListing.

Context {RT : Runtime} {HP : Helpers}
        {TLS : TLSCertificatesProvidesV2 CERTIFICATES_RELATION}.

(** X3.  [_get_outstanding_requests] calls
    [get_requirer_csrs_with_no_certs] once and returns the [unit_csrs]
    lists of its elements joined in the order of the elements, repeated
    requests kept: a request is in the result exactly when it is in the
    list of some element.  The relation data is not changed. *)
Theorem get_outstanding_requests_joins (c : Charm) :
  let elements := get_requirer_csrs_with_no_certs (relations c) in
  exists c' requests,
    _get_outstanding_requests c = (c', Ok requests)
    /\ requests = concat (map unit_csrs elements)
    /\ (forall csr,
          In csr requests
          <-> exists element, In element elements /\ In csr (unit_csrs element))
    /\ relations c' = relations c
    /\ tls_calls c' = tls_calls c ++ [Call_get_requirer_csrs_with_no_certs].
Proof.
  intros elements. rewrite get_outstanding_requests_eq.
  eexists. eexists. split; [reflexivity|]. split; [reflexivity|].
  split; [|split; reflexivity].
  intros csr. fold elements. rewrite in_concat. split.
  - intros (l & Hl & Hcsr). apply in_map_iff in Hl.
    destruct Hl as (element & <- & Hin). exists element. auto.
  - intros (element & Hin & Hcsr). exists (unit_csrs element).
    split; [apply in_map, Hin|exact Hcsr].
Qed.

Lemma outstanding_action_with_relation (h : Hook) :
  relations_named (relations (self h)) CERTIFICATES_RELATION <> [] ->
  _on_get_outstanding_certificate_requests_action h
  = ({| self := with_call Call_get_requirer_csrs_with_no_certs (self h);
        event :=
          {| params := params (event h);
             failed := failed (event h);
             results :=
               Some (ResultOutstanding
                       (get_requirer_csrs_with_no_certs (relations (self h))))
          |} |},
     Ok tt).
Proof.
  intros H. unfold _on_get_outstanding_certificate_requests_action.
  rewrite run_bind, guard_eq, (truthy_true H).
  cbn [negb]. rewrite run_bind. reflexivity.
Qed.

Lemma request_action_with_relation (h : Hook) :
  relations_named (relations (self h)) CERTIFICATES_RELATION <> [] ->
  _on_get_certificate_request_action h
  = let rid := relation_id (params (event h)) in
    let called :=
      {| self := with_call (Call_get_requirer_csrs rid) (self h);
         event := event h |} in
    match get_requirer_csrs rid (relations (self h)) with
    | Ok requests =>
        ({| self := self called;
            event := {| params := params (event h);
                        failed := failed (event h);
                        results := Some (ResultRequests requests) |} |},
         Ok tt)
    | Raise e => (called, Raise e)
    end.
Proof.
  intros H. unfold _on_get_certificate_request_action.
  rewrite run_bind, guard_eq, (truthy_true H).
  cbn [negb].
  rewrite run_bind. unfold event_params at 1.
  rewrite run_bind. unfold on_self, tls_get_requirer_csrs.
  destruct (get_requirer_csrs _ _); reflexivity.
Qed.

(** X4.  Where a [certificates] relation exists, the action that lists
    the outstanding requests returns normally with, as its result, the
    list [get_requirer_csrs_with_no_certs] gives for the relation data,
    unfiltered and in its order; it calls the library once, does not
    fail the event and leaves the relation data and the status alone. *)
Theorem outstanding_action_lists (h : Hook) :
  relations_named (relations (self h)) CERTIFICATES_RELATION <> [] ->
  exists h',
    _on_get_outstanding_certificate_requests_action h = (h', Ok tt)
    /\ results (event h')
       = Some (ResultOutstanding
                 (get_requirer_csrs_with_no_certs (relations (self h))))
    /\ failed (event h') = failed (event h)
    /\ relations (self h') = relations (self h)
    /\ status (self h') = status (self h)
    /\ tls_calls (self h')
       = tls_calls (self h) ++ [Call_get_requirer_csrs_with_no_certs].
Proof.
  intros H. rewrite (outstanding_action_with_relation h H).
  eexists. split; [reflexivity|]. repeat split.
Qed.

Lemma creation_request_eq (c : Charm) :
  _on_certificate_creation_request c
  = (with_status
       (ActiveStatus
          (str_of_nat
             (list_sum (map (fun element => length (unit_csrs element))
                          (get_requirer_csrs_with_no_certs (relations c))))
           ++ py " outstanding requests, use juju actions to provide certificates"))
       (with_call Call_get_requirer_csrs_with_no_certs c),
     Ok tt).
Proof.
  unfold _on_certificate_creation_request.
  rewrite run_bind, get_outstanding_requests_eq. cbn.
  rewrite length_concat_sum. reflexivity.
Qed.

(** X5.  The number in the status message of a certificate creation
    request is the number of requests the listing action shows on the
    same relation data: the message is a decimal numeral followed by the
    fixed text, and the numeral denotes the lengths of the [unit_csrs]
    lists of the listing's result, summed. *)
Theorem status_counts_listed_requests (h : Hook) :
  relations_named (relations (self h)) CERTIFICATES_RELATION <> [] ->
  exists listed numeral,
    results (event (fst (_on_get_outstanding_certificate_requests_action h)))
    = Some (ResultOutstanding listed)
    /\ status (fst (_on_certificate_creation_request (self h)))
       = ActiveStatus
           (numeral
            ++ py " outstanding requests, use juju actions to provide certificates")
    /\ decimal_value numeral
       = Some (list_sum (map (fun element => length (unit_csrs element))
                           listed)).
Proof.
  intros H. rewrite (outstanding_action_with_relation h H).
  eexists. eexists. split; [reflexivity|].
  rewrite creation_request_eq. split; [reflexivity|].
  apply decimal_value_str_of_nat.
Qed.

(** X6.  Where a [certificates] relation exists, the action that lists
    the requests of one relation has no handler for the errors of the
    library: when [get_requirer_csrs] raises, whatever the class of the
    exception, the action raises it too and the event is neither failed
    nor given a result; when it returns a list, that list is the result
    and the event is not failed.  Either way the library is called once,
    with the relation id of the parameters, and the relation data is
    unchanged. *)
Theorem request_action_relays_library (h : Hook) :
  let rid := relation_id (params (event h)) in
  relations_named (relations (self h)) CERTIFICATES_RELATION <> [] ->
  exists h',
    fst (_on_get_certificate_request_action h) = h'
    /\ relations (self h') = relations (self h)
    /\ tls_calls (self h') = tls_calls (self h) ++ [Call_get_requirer_csrs rid]
    /\ (forall e,
          get_requirer_csrs rid (relations (self h)) = Raise e ->
          _on_get_certificate_request_action h = (h', Raise e)
          /\ event h' = event h)
    /\ (forall requests,
          get_requirer_csrs rid (relations (self h)) = Ok requests ->
          _on_get_certificate_request_action h = (h', Ok tt)
          /\ results (event h') = Some (ResultRequests requests)
          /\ failed (event h') = failed (event h)).
Proof.
  intros rid H. rewrite (request_action_with_relation h H). fold rid.
  cbv zeta.
  destruct (get_requirer_csrs rid (relations (self h))) as [requests|e];
    eexists; (split; [reflexivity|]); (split; [reflexivity|]);
    (split; [reflexivity|]); split; intros x E;
    try discriminate; injection E as <-; repeat split.
Qed.

(** X7.  The status a certificate creation request leaves depends on the
    relation data alone: charms with the same relation data get the same
    status, whatever their status before, and handling the event a
    second time leaves the status of the first. *)
Theorem creation_request_status_by_relations (c1 c2 : Charm) :
  relations c1 = relations c2 ->
  status (fst (_on_certificate_creation_request c1))
  = status (fst (_on_certificate_creation_request c2))
  /\ status (fst (_on_certificate_creation_request
                    (fst (_on_certificate_creation_request c1))))
     = status (fst (_on_certificate_creation_request c1)).
Proof.
  intros H. rewrite !creation_request_eq.
  cbn [fst with_status with_call status relations].
  rewrite H. split; reflexivity.
Qed.

End MoreOnListing.

(** ** Validation and the attach step *)

Section MoreOnIssuance.

Context {RT : Runtime} {HP : Helpers}
        {TLS : TLSCertificatesProvidesV2 CERTIFICATES_RELATION}.

(** X8.  The three results of [_action_certificates_are_valid].  It
    returns [True] exactly when the four parts decode, the validators
    accept the first three, the octets of the chain decode as text and
    every block of that text is accepted.  It returns [False] exactly
    when the first part [b64decode] rejects is rejected with
    [binascii.Error] or [TypeError], or the four parts decode and one of
    the first three, or a block of the chain text, is refused.  It
    raises [e] exactly when the first part [b64decode] rejects is
    rejected with [e] of another class, or the first three parts are
    accepted and decoding the octets of the chain as text raises [e]. *)
Theorem validation_results (p : Params) :
  (validate p = Ok true <-> all_steps_pass p)
  /\ (validate p = Ok false <-> decoding_fails p \/ structure_fails p)
  /\ (forall e,
        validate p = Raise e
        <-> (first_raise (encoded_parts p) e
             /\ e <> BinasciiError /\ e <> TypeError)
            \/ chain_is_not_text p e).
Proof.
  split; [apply validate_true_iff|].
  split; [apply validate_false_iff|].
  intros e. apply validate_raise_iff.
Qed.

(** X9.  A chain in which [parse_ca_chain] finds no block is accepted:
    when the first three parts are accepted and the chain text has no
    block, validation returns [True], and the chain the action hands to
    the attach step is the empty list. *)
Theorem empty_chain_is_accepted (p : Params) (cert ca_cert csr chain : bytes)
  (chain_text : str) :
  decodes_to p cert ca_cert csr chain ->
  certificate_is_valid cert = true ->
  certificate_is_valid ca_cert = true ->
  certificate_signing_request_is_valid csr = true ->
  bytes_decode chain = Ok chain_text ->
  parse_ca_chain chain_text = [] ->
  validate p = Ok true
  /\ (forall args, issued_of_params p = Ok args -> issued_chain args = []).
Proof.
  intros Hdec H1 H2 H3 Htext Hempty. split.
  - apply validate_true_iff.
    exists cert, ca_cert, csr, chain, chain_text.
    rewrite Hempty. split; [exact Hdec|].
    repeat split; try assumption. constructor.
  - intros args Hargs. apply issued_of_params_ok in Hargs.
    destruct Hargs as (t1 & t2 & t3 & t4 & _ & _ & _ & H4 & ->).
    cbn [issued_chain].
    destruct Hdec as (_ & _ & _ & Hchain).
    rewrite (decoded_text_eq _ Hchain), Htext in H4. injection H4 as <-.
    exact Hempty.
Qed.

(** X10.  After validation has passed, building the arguments of the
    attach step can fail in one way only: the octets of the request, of
    the certificate or of the CA certificate, tried in this order, do
    not decode as UTF-8.  Decoding base64 again, and decoding and
    parsing the chain again, cannot fail. *)
Theorem arguments_fail_on_text_only (p : Params)
  (cert ca_cert csr chain : bytes) (e : exn) :
  validate p = Ok true ->
  decodes_to p cert ca_cert csr chain ->
  issued_of_params p = Raise e
  <-> bytes_decode csr = Raise e
      \/ (exists csr_text,
            bytes_decode csr = Ok csr_text /\ bytes_decode cert = Raise e)
      \/ (exists csr_text certificate_text,
            bytes_decode csr = Ok csr_text
            /\ bytes_decode cert = Ok certificate_text
            /\ bytes_decode ca_cert = Raise e).
Proof.
  intros Hvalid (Hcert & Hca & Hcsr & Hchain).
  apply validate_true_iff in Hvalid.
  destruct Hvalid as (cert' & ca' & csr' & chain' & chain_text
                      & (_ & _ & _ & Hchain') & _ & _ & _ & Htext & _).
  rewrite Hchain in Hchain'. injection Hchain' as <-.
  unfold issued_of_params. cbn [bind ret result_monad].
  rewrite (decoded_text_eq _ Hchain), Htext.
  rewrite (decoded_text_eq _ Hcsr), (decoded_text_eq _ Hcert),
    (decoded_text_eq _ Hca).
  destruct (bytes_decode csr) as [csr_text|e1].
  - destruct (bytes_decode cert) as [certificate_text|e2].
    + destruct (bytes_decode ca_cert) as [ca_text|e3].
      * split; [discriminate|].
        intros [H|[(? & _ & H)|(? & ? & _ & _ & H)]]; discriminate.
      * split.
        -- intros H. injection H as <-. right. right. eauto.
        -- intros [H|[(? & _ & H)|(? & ? & _ & _ & H)]];
             try discriminate. injection H as <-. reflexivity.
    + split.
      * intros H. injection H as <-. right. left. eauto.
      * intros [H|[(? & _ & H)|(? & ? & _ & H & _)]];
          try discriminate. injection H as <-. reflexivity.
  - split.
    + intros H. injection H as <-. left. reflexivity.
    + intros [H|[(? & H & _)|(? & ? & H & _)]];
        try discriminate. injection H as <-. reflexivity.
Qed.

(** X11.  The success path.  Where a [certificates] relation exists,
    validation passes, the arguments are built and
    [set_relation_certificate] returns, the action returns with the
    result "Certificates successfully provided." and does not fail the
    event; the relation data is what the library left, and the library
    was called once. *)
Theorem provide_succeeds (h : Hook) (args : Issued) (rels : RelationMapping) :
  relations_named (relations (self h)) CERTIFICATES_RELATION <> [] ->
  validate (params (event h)) = Ok true ->
  issued_of_params (params (event h)) = Ok args ->
  set_relation_certificate args (relations (self h)) = (rels, Ok tt) ->
  exists h',
    _on_provide_certificate_action h = (h', Ok tt)
    /\ results (event h') = Some (ResultText PROVIDED)
    /\ failed (event h') = failed (event h)
    /\ relations (self h') = rels
    /\ status (self h') = status (self h)
    /\ tls_calls (self h')
       = tls_calls (self h) ++ [Call_set_relation_certificate args].
Proof.
  intros Hrel Hvalid Hargs Hset.
  rewrite (provide_with_relation h Hrel), Hvalid, Hargs, Hset.
  eexists. split; [reflexivity|]. repeat split.
Qed.

(** X12.  What the [except RuntimeError] clause catches.  Where a
    [certificates] relation exists, validation passes and the arguments
    are built, let [set_relation_certificate] raise [e].  If [e] is a
    [RuntimeError] or of a subclass such as [NotImplementedError], the
    action returns normally with the event failed by the
    relation-not-found message.  Otherwise the action raises [e] itself
    and the event is neither failed nor given a result.  In both cases
    no result is set, and the relation data is what the library left. *)
Theorem provide_on_library_error (h : Hook) (args : Issued)
  (rels : RelationMapping) (e : exn) :
  relations_named (relations (self h)) CERTIFICATES_RELATION <> [] ->
  validate (params (event h)) = Ok true ->
  issued_of_params (params (event h)) = Ok args ->
  set_relation_certificate args (relations (self h)) = (rels, Raise e) ->
  exists h',
    fst (_on_provide_certificate_action h) = h'
    /\ results (event h') = results (event h)
    /\ relations (self h') = rels
    /\ (e = RuntimeError \/ e = NotImplementedError ->
        _on_provide_certificate_action h = (h', Ok tt)
        /\ failed (event h') = Some RELATION_NOT_FOUND)
    /\ (e <> RuntimeError -> e <> NotImplementedError ->
        _on_provide_certificate_action h = (h', Raise e)
        /\ event h' = event h).
Proof.
  intros Hrel Hvalid Hargs Hset.
  rewrite (provide_with_relation h Hrel), Hvalid, Hargs, Hset.
  destruct e; cbn; eexists; (split; [reflexivity|]);
    (split; [reflexivity|]); (split; [reflexivity|]);
    split; intros; try (split; reflexivity);
    try congruence;
    match goal with H : _ \/ _ |- _ => destruct H; discriminate end.
Qed.

(** X13.  The event after an action.  For each of the three actions,
    started on an event that is neither failed nor given a result: when
    the action returns, it has either failed the event or set a result,
    never both; when it raises, the event is as it was. *)
Theorem action_outcome_is_single (h : Hook) :
  failed (event h) = None ->
  results (event h) = None ->
  forall action,
    In action [_on_get_outstanding_certificate_requests_action;
               _on_get_certificate_request_action;
               _on_provide_certificate_action] ->
    let h' := fst (action h) in
    match snd (action h) with
    | Ok _ =>
        (failed (event h') <> None /\ results (event h') = None)
        \/ (failed (event h') = None /\ results (event h') <> None)
    | Raise _ => event h' = event h
    end.
Proof.
  intros Hfailed Hresults action Hin.
  destruct (relations_named (relations (self h)) CERTIFICATES_RELATION)
    as [|r rs] eqn:E.
  - assert (Hno : action h = (failed_with NO_RELATION h, Ok tt)).
    { simpl in Hin. destruct Hin as [<-|[<-|[<-|[]]]].
      - apply outstanding_action_without_relation, E.
      - apply request_action_without_relation, E.
      - apply provide_action_without_relation, E. }
    rewrite Hno. left. split; [discriminate|exact Hresults].
  - assert (Hrel : relations_named (relations (self h)) CERTIFICATES_RELATION
                   <> []) by (rewrite E; discriminate).
    clear E. simpl in Hin. destruct Hin as [<-|[<-|[<-|[]]]].
    + rewrite (outstanding_action_with_relation h Hrel). right.
      split; [exact Hfailed|discriminate].
    + rewrite (request_action_with_relation h Hrel). cbv zeta.
      destruct (get_requirer_csrs _ _); [|reflexivity].
      right. split; [exact Hfailed|discriminate].
    + rewrite (provide_with_relation h Hrel).
      destruct (validate (params (event h))) as [[|]|e]; [| |reflexivity].
      * destruct (issued_of_params (params (event h))) as [args|e];
          [|reflexivity].
        destruct (set_relation_certificate args (relations (self h)))
          as [rels [[]|e]].
        -- right. split; [exact Hfailed|discriminate].
        -- destruct (issubclass e RuntimeError); [|reflexivity].
           left. split; [discriminate|exact Hresults].
      * left. split; [discriminate|exact Hresults].
Qed.

(** X14.  When the issuance action raises.  It raises [e] exactly when
    a [certificates] relation exists and one of three things happens:
    validation raises [e]; validation passes and building the arguments
    of the attach step raises [e]; or both succeed and
    [set_relation_certificate] raises [e], which is no [RuntimeError].
    Where no relation exists it never raises. *)
Theorem provide_raises_iff (h : Hook) (e : exn) :
  let p := params (event h) in
  snd (_on_provide_certificate_action h) = Raise e
  <-> relations_named (relations (self h)) CERTIFICATES_RELATION <> []
      /\ (validate p = Raise e
          \/ (validate p = Ok true /\ issued_of_params p = Raise e)
          \/ (validate p = Ok true
              /\ exists args,
                   issued_of_params p = Ok args
                   /\ snd (set_relation_certificate args (relations (self h)))
                      = Raise e
                   /\ issubclass e RuntimeError = false)).
Proof.
  intros p. subst p.
  destruct (relations_named (relations (self h)) CERTIFICATES_RELATION)
    as [|r rs] eqn:E.
  - rewrite (provide_action_without_relation h E). split.
    + discriminate.
    + intros [H _]. congruence.
  - assert (Hrel : relations_named (relations (self h)) CERTIFICATES_RELATION
                   <> []) by (rewrite E; discriminate).
    rewrite (provide_with_relation h Hrel).
    destruct (validate (params (event h))) as [[|]|e0].
    + destruct (issued_of_params (params (event h))) as [args|e1].
      * destruct (set_relation_certificate args (relations (self h)))
          as [rels [[]|e2]] eqn:Hset.
        -- split; [discriminate|].
           intros (_ & [H|[[_ H]|(_ & a & Ha & H & _)]]); try discriminate.
           injection Ha as <-. rewrite Hset in H. discriminate.
        -- destruct (issubclass e2 RuntimeError) eqn:Hsub.
           ++ split; [discriminate|].
              intros (_ & [H|[[_ H]|(_ & a & Ha & H & Hs)]]);
                try discriminate.
              injection Ha as <-. rewrite Hset in H. injection H as <-.
              congruence.
           ++ split.
              ** intros H. injection H as <-. split; [discriminate|].
                 right. right. split; [reflexivity|].
                 exists args. rewrite Hset. auto.
              ** intros (_ & [H|[[_ H]|(_ & a & Ha & H & Hs)]]);
                   try discriminate.
                 injection Ha as <-. rewrite Hset in H. exact H.
      * split.
        -- intros H. injection H as <-. split; [discriminate|]. auto.
        -- intros (_ & [H|[[_ H]|(_ & a & Ha & _)]]); try discriminate.
           injection H as <-. reflexivity.
    + split; [discriminate|].
      intros (_ & [H|[[H _]|(H & _)]]); discriminate.
    + split.
      * intros H. injection H as <-. split; [discriminate|]. auto.
      * intros (_ & [H|[[H _]|(H & _)]]); try discriminate.
        injection H as <-. reflexivity.
Qed.

End MoreOnIssuance.

(** ** The further properties on concrete inputs *)

Lemma a_relation_exists (p : Params) :
  relations_named (relations (self (a_hook [a_relation] p)))
    CERTIFICATES_RELATION <> [].
Proof. vm_compute. discriminate. Qed.

Lemma outstanding_action_lists_witness :
  let h := a_hook [a_relation] (good_params 7) in
  exists h',
    _on_get_outstanding_certificate_requests_action h = (h', Ok tt)
    /\ results (event h')
       = Some (ResultOutstanding
                 (listOutstanding CERTIFICATES_RELATION (relations (self h))))
    /\ failed (event h') = failed (event h)
    /\ relations (self h') = relations (self h)
    /\ status (self h') = status (self h)
    /\ tls_calls (self h')
       = tls_calls (self h) ++ [Call_get_requirer_csrs_with_no_certs].
Proof.
  intros h. exact (outstanding_action_lists h (@a_relation_exists _)).
Defined.

Lemma status_counts_listed_requests_witness :
  let h := a_hook [a_relation] (good_params 7) in
  (exists listed numeral,
     results (event (fst (_on_get_outstanding_certificate_requests_action h)))
     = Some (ResultOutstanding listed)
     /\ status (fst (_on_certificate_creation_request (self h)))
        = ActiveStatus
            (numeral
             ++ py " outstanding requests, use juju actions to provide certificates")
     /\ decimal_value numeral
        = Some (list_sum (map (fun element => length (unit_csrs element))
                            listed)))
  /\ results (event (fst (_on_get_outstanding_certificate_requests_action h)))
     = Some (ResultOutstanding
               [{| requirer_unit := py "requirer/0";
                   unit_csrs := [strip a_csr] |}])
  /\ status (fst (_on_certificate_creation_request (self h)))
     = ActiveStatus
         (py "1 outstanding requests, use juju actions to provide certificates").
Proof.
  intros h. split.
  - exact (status_counts_listed_requests h (@a_relation_exists _)).
  - split; vm_compute; reflexivity.
Defined.

Lemma request_action_relays_library_witness :
  let h := a_hook [a_relation] (good_params 8) in
  exists h',
    _on_get_certificate_request_action h = (h', Raise NotFoundError)
    /\ event h' = event h
    /\ tls_calls (self h') = [Call_get_requirer_csrs 8].
Proof.
  intros h.
  destruct (request_action_relays_library h (@a_relation_exists _))
    as (h' & _ & _ & Hcalls & Hraise & _).
  exists h'.
  destruct (Hraise NotFoundError eq_refl) as [H1 H2].
  split; [exact H1|]. split; [exact H2|exact Hcalls].
Defined.

Lemma creation_request_status_by_relations_witness :
  let c1 := a_charm [a_relation] in
  let c2 := with_status (ActiveStatus (py "Ready to provide certificates."))
              c1 in
  relations c1 = relations c2
  /\ status (fst (_on_certificate_creation_request c1))
     = status (fst (_on_certificate_creation_request c2))
  /\ status (fst (_on_certificate_creation_request
                    (fst (_on_certificate_creation_request c1))))
     = status (fst (_on_certificate_creation_request c1)).
Proof.
  intros c1 c2. split; [reflexivity|].
  exact (creation_request_status_by_relations c1 c2 eq_refl).
Defined.

Lemma empty_chain_is_accepted_witness :
  let p := some_params 7 (b64 a_certificate) (b64 a_ca_certificate)
             (b64 a_csr) (b64 (py "not a chain")) in
  parse_ca_chain (py "not a chain") = []
  /\ validate p = Ok true
  /\ (forall args, issued_of_params p = Ok args -> issued_chain args = []).
Proof.
  intros p. split; [reflexivity|].
  apply (empty_chain_is_accepted (p := p)
           (cert := py_str_encode a_certificate)
           (ca_cert := py_str_encode a_ca_certificate)
           (csr := py_str_encode a_csr)
           (chain := py_str_encode (py "not a chain"))
           (chain_text := py "not a chain")).
  - repeat split; vm_compute; reflexivity.
  - vm_compute. reflexivity.
  - vm_compute. reflexivity.
  - vm_compute. reflexivity.
  - vm_compute. reflexivity.
  - vm_compute. reflexivity.
Defined.

Lemma arguments_fail_on_text_only_witness :
  let p := some_params 7 binary_certificate (b64 a_ca_certificate)
             (b64 a_csr) (b64 a_certificate) in
  validate p = Ok true
  /\ issued_of_params p = Raise UnicodeDecodeError.
Proof.
  intros p.
  assert (Hvalid : validate p = Ok true) by (vm_compute; reflexivity).
  split; [exact Hvalid|].
  assert (Hdec : decodes_to p
                   (of_octets
                      (py "-----BEGIN CERTIFICATE-----" ++ [255%N]
                       ++ py "-----END CERTIFICATE-----"))
                   (py_str_encode a_ca_certificate)
                   (py_str_encode a_csr)
                   (py_str_encode a_certificate))
    by (repeat split; vm_compute; reflexivity).
  apply (proj2 (arguments_fail_on_text_only UnicodeDecodeError Hvalid Hdec)).
  right. left. exists a_csr. split; vm_compute; reflexivity.
Defined.

Lemma provide_succeeds_witness :
  let h := a_hook [a_relation] (good_params 7) in
  exists h',
    _on_provide_certificate_action h = (h', Ok tt)
    /\ results (event h') = Some (ResultText PROVIDED)
    /\ failed (event h') = None
    /\ status (self h') = status (self h).
Proof.
  intros h.
  destruct (issued_of_params (params (event h))) as [args|e] eqn:Hargs;
    [|vm_compute in Hargs; discriminate].
  assert (Hvalid : validate (params (event h)) = Ok true)
    by (vm_compute; reflexivity).
  destruct (provide_succeeds h (args := args)
              (rels := fst (attachCertificate CERTIFICATES_RELATION args
                              (relations (self h))))
              (@a_relation_exists _) Hvalid Hargs)
    as (h' & H1 & H2 & H3 & _ & H5 & _).
  - vm_compute in Hargs. injection Hargs as <-. vm_compute. reflexivity.
  - exists h'. repeat split; assumption.
Defined.

Lemma provide_on_library_error_witness :
  let h := a_hook [a_relation] (good_params 7) in
  exists h',
    _on_provide_certificate_action (TLS := failing_provider KeyError) h
    = (h', Raise KeyError)
    /\ event h' = event h.
Proof.
  intros h.
  destruct (issued_of_params (params (event h))) as [args|e] eqn:Hargs;
    [|vm_compute in Hargs; discriminate].
  assert (Hvalid : validate (params (event h)) = Ok true)
    by (vm_compute; reflexivity).
  destruct (provide_on_library_error (TLS := failing_provider KeyError)
              h (args := args) (rels := relations (self h)) (e := KeyError)
              (@a_relation_exists _) Hvalid Hargs eq_refl)
    as (h' & _ & _ & _ & _ & Hraise).
  exists h'. apply Hraise; discriminate.
Defined.

Lemma action_outcome_is_single_witness :
  let h := a_hook [a_relation] (good_params 7) in
  let h' := fst (_on_provide_certificate_action h) in
  match snd (_on_provide_certificate_action h) with
  | Ok _ =>
      (failed (event h') <> None /\ results (event h') = None)
      \/ (failed (event h') = None /\ results (event h') <> None)
  | Raise _ => event h' = event h
  end.
Proof.
  intros h.
  apply (action_outcome_is_single h eq_refl eq_refl).
  right. right. left. reflexivity.
Defined.
